(** * react-workshop-app: the bootstrap layer of [src/index.tsx]

    A shallow embedding of [makeKCDWorkshopApp] and its helpers:
    the module resolver [moduleWithDefaultExport], the start-up
    registration of lazy components, the history handler
    [handleLocationChange], the isolated renderer [renderIsolated]
    and the replay of the scripts of an isolated HTML page.

    Conventions of the model.
    - A JavaScript string is a Rocq [string] holding its UTF-8 bytes.  All
      the string operations of the source ([startsWith], [endsWith],
      [replace], [split], [encodeURIComponent]) act on such a string byte
      by byte exactly as they act on the UTF-16 original.
    - A plain object used as a dictionary ([imports], [lazyComponents]) is
      a [gmap string _]; the class list of an element is a [gset string].
    - A promise is described by the way it settles; the moment at which it
      settles is an event of the transition system of the page.
    - Numbers are natural numbers, which is exact for the safe integers of
      JavaScript (below 2^53). *)

From Stdlib Require Import String Ascii NArith List Bool Lia.
From Stdlib Require Import DecimalString DecimalN.
From stdpp Require Import base option gmap strings list.

Local Open Scope string_scope.

(** ** Strings *)

Module JsString.

(** [s.startsWith(p)] *)
Fixpoint startsWith (s p : string) : bool :=
  match p, s with
  | EmptyString, _ => true
  | String _ _, EmptyString => false
  | String b p', String a s' => Ascii.eqb a b && startsWith s' p'
  end.

Fixpoint drop (n : nat) (s : string) : string :=
  match n, s with
  | O, _ => s
  | S _, EmptyString => EmptyString
  | S n', String _ s' => drop n' s'
  end.

(** [s.endsWith(p)] *)
Definition endsWith (s p : string) : bool :=
  (String.length p <=? String.length s)%nat
  && String.eqb (drop (String.length s - String.length p) s) p.

(** [s.replace(pat, rep)] with a string pattern: the first occurrence
    only ([rep] holds no [$] here). *)
Fixpoint replace (pat rep s : string) : string :=
  if startsWith s pat then rep ++ drop (String.length pat) s
  else match s with
       | EmptyString => EmptyString
       | String a s' => String a (replace pat rep s')
       end.

(** [s.replace(/c/g, d)] for a one-character pattern. *)
Fixpoint replaceAll (c d : ascii) (s : string) : string :=
  match s with
  | EmptyString => EmptyString
  | String a s' => String (if Ascii.eqb a c then d else a) (replaceAll c d s')
  end.

(** [s.split(c)]: never empty, [""] splits into [[""]]. *)
Fixpoint split (c : ascii) (s : string) : list string :=
  match s with
  | EmptyString => [EmptyString]
  | String a s' =>
      if Ascii.eqb a c then EmptyString :: split c s'
      else match split c s' with
           | [] => [String a EmptyString]
           | w :: ws => String a w :: ws
           end
  end.

(** [xs.slice(-1)[0]] *)
Definition last_item (xs : list string) : option string := List.last (List.map Some xs) None.

Definition hexDigit (n : N) : ascii :=
  if (n <? 10)%N then ascii_of_N (48 + n) else ascii_of_N (55 + n).

(** The characters [encodeURIComponent] leaves alone:
    [A-Z a-z 0-9 - _ . ! ~ * ' ( )]. *)
Definition unreserved (a : ascii) : bool :=
  let n := N_of_ascii a in
  ((65 <=? n) && (n <=? 90) || (97 <=? n) && (n <=? 122)
   || (48 <=? n) && (n <=? 57)
   || (n =? 45) || (n =? 95) || (n =? 46) || (n =? 33) || (n =? 126)
   || (n =? 42) || (n =? 39) || (n =? 40) || (n =? 41))%N.

(** [encodeURIComponent(s)]: every other byte of the UTF-8 form becomes
    [%XX] in upper-case hexadecimal. *)
Fixpoint encodeURIComponent (s : string) : string :=
  match s with
  | EmptyString => EmptyString
  | String a s' =>
      if unreserved a then String a (encodeURIComponent s')
      else let n := N_of_ascii a in
           String "%" (String (hexDigit (n / 16)) (String (hexDigit (n mod 16))
             (encodeURIComponent s')))
  end.

(** [xs.join(sep)] *)
Fixpoint join (sep : string) (xs : list string) : string :=
  match xs with
  | [] => EmptyString
  | [x] => x
  | x :: rest => x ++ sep ++ join sep rest
  end.

(** [`${n}`] for a safe integer. *)
Definition ofNumber (n : N) : string := NilZero.string_of_uint (N.to_uint n).

End JsString.

(** ** Values, modules and promises *)

(** The functions that can be a default export: the sentinel
    [DO_NOT_RENDER] of the source, the closure
    [() => <div>{error.message}</div>] built on a failed import, and the
    components of the exercise files. *)
Inductive Fn : Type :=
| DO_NOT_RENDER
| ErrorMessage (message : string)
| Component (id : nat).

Inductive Value : Type :=
| VUndefined
| VNull
| VString (s : string)
| VFunction (f : Fn)
| VOther (id : nat).

(** [a ?? b] *)
Definition nullish (a b : Value) : Value :=
  match a with
  | VUndefined | VNull => b
  | _ => a
  end.

(** The two exports of a module namespace that the source reads. *)
Record Module : Type := { App : Value; default_export : Value }.

Record JsError : Type := { message : string }.

Inductive Settled (A : Type) : Type :=
| Fulfilled (a : A)
| Rejected (e : JsError).
Arguments Fulfilled {A} a.
Arguments Rejected {A} e.

(** What a handler of the resolver does on the side when it runs. *)
Inductive SideEffect : Type :=
| ConsoleError (filePath : string) (error : JsError)
| TargetBlankifyInstructionLinks.

Record Promise (A : Type) : Type :=
  { on_settle : list SideEffect; outcome : Settled A }.
Arguments on_settle {A} _.
Arguments outcome {A} _.

(** [DynamicImportFn] and [DefaultDynamicImportFn] of [./types]: a thunk
    that starts an import. *)
Definition DynamicImportFn : Type := unit -> Promise Module.

Abbreviation Imports := (gmap string DynamicImportFn).

(** ** The module resolver *)

(** [filePath.match(/\.mdx?$/)] *)
Definition matches_mdx (filePath : string) : bool :=
  JsString.endsWith filePath ".md" || JsString.endsWith filePath ".mdx".

(** The function [importJS] that [moduleWithDefaultExport] returns. *)
Definition importJS (importFn : DynamicImportFn) (filePath : string) : DynamicImportFn :=
  fun _ =>
    let p := importFn tt in
    match outcome p with
    | Fulfilled module =>
        {| on_settle :=
             on_settle p ++
             (if matches_mdx filePath then [TargetBlankifyInstructionLinks] else []);
           outcome :=
             Fulfilled
               {| App := VUndefined;
                  default_export :=
                    nullish (nullish (App module) (default_export module))
                            (VFunction DO_NOT_RENDER) |} |}
    | Rejected error =>
        {| on_settle := on_settle p ++ [ConsoleError filePath error];
           outcome :=
             Fulfilled
               {| App := VUndefined;
                  default_export := VFunction (ErrorMessage (message error)) |} |}
    end.

Definition moduleWithDefaultExport (imports : Imports) (filePath : string)
  : JsError + DynamicImportFn :=
  match imports !! filePath with
  | None => inl {| message := "'" ++ filePath ++ "' does not exist in imports." |}
  | Some importFn =>
      if JsString.endsWith filePath "html" then inr importFn
      else inr (importJS importFn filePath)
  end.

(** ** The manifest and the start-up registration *)

(** Modelled from the spec: the declaration of [FileInfo] in [./types] is
    not part of the source; the fields are the ones the source reads, with
    the optional ones ("optional numeric index, optional title/filename")
    as options, [None] standing for [undefined]. *)
Record FileInfo : Type :=
  { ext : string;
    filePath : string;
    number : option N;
    title : option string;
    filename : option string;
    type : string }.

Definition componentExtensions : list string := [".js"; ".md"; ".mdx"; ".tsx"; ".ts"].

(** [xs.includes(x)] on strings *)
Definition includes (xs : list string) (x : string) : bool := existsb (String.eqb x) xs.

(** [React.lazy(load)] *)
Inductive LazyComponent : Type := React_lazy (load : DynamicImportFn).

(** The loop of lines 59-65, which fills [lazyComponents]; the first
    missing import stops it with the error that [moduleWithDefaultExport]
    throws. *)
Fixpoint registerLazyComponents (imports : Imports) (filesInfo : list FileInfo)
    (lazyComponents : gmap string LazyComponent) : JsError + gmap string LazyComponent :=
  match filesInfo with
  | [] => inr lazyComponents
  | info :: rest =>
      if includes componentExtensions (ext info) then
        match moduleWithDefaultExport imports (filePath info) with
        | inl e => inl e
        | inr load =>
            registerLazyComponents imports rest
              (<[filePath info := React_lazy load]> lazyComponents)
        end
      else registerLazyComponents imports rest lazyComponents
  end.

(** ** The page: documents, locations, state *)

(** A script element: its attributes in order and its inline text. *)
Record Script : Type := { attributes : list (string * string); innerHTML : string }.

(** [script.hasAttribute('src')] *)
Definition hasAttribute (name : string) (s : Script) : bool :=
  existsb (fun kv => String.eqb (fst kv) name) (attributes s).

(** What the model keeps of a document element and its subtree: the class
    list of its body, the text of its title element, whether it holds the
    element with id [root], and its script elements in document order. *)
Record Doc : Type :=
  { classList : gset string;
    doc_title : string;
    root : bool;
    scripts : list Script }.

(** A location object of the history library.  [key] stands for the
    identity of the object: the library makes a new object on every
    transition, and the source compares locations with [!==]. *)
Record Location : Type := { key : nat; pathname : string }.

Definition same_object (a b : Location) : bool := Nat.eqb (key a) (key b).

(** What is handed to [render]. *)
Inductive Ui : Type :=
| createElement (f : Fn)
| ShellUi.

(** The callbacks waiting in [setTimeout]. *)
Inductive Timer : Type :=
| TitleTimer (info : option FileInfo)
| TargetBlankifyTimer.

(** The effects a pass leaves in the log, oldest last. *)
Inductive Effect : Type :=
| NotFoundPlaceholder
| RestoreOriginalDocument
| RenderReactApp
| Alert
| Unmount (ui : Ui)
| RootRender (ui : Ui)
| ReplaceDocument (markup : string)
| Console (filePath : string) (error : JsError)
| UnhandledRejection (error : JsError)
| Uncaught (error : JsError).

Record State : Type :=
  { history_location : Location;
    next_key : nat;
    previousLocation : Location;
    previousIsIsolated : option bool;
    originalDocumentElement : Doc;
    (** the document element in place when it is not the original one *)
    replacedDocumentElement : option Doc;
    unmount : option Ui;
    timers : list Timer;
    (** the promises [renderIsolated] is waiting for *)
    pending : list (Promise Module);
    log : list Effect }.

(** The browser functions the source calls and the model does not spell
    out: [Number] outside the plain decimal numerals, and [DOMParser]. *)
Record Browser : Type :=
  { Number_other : string -> option N;
    parseFromString : string -> Doc }.

(** The arguments of [makeKCDWorkshopApp] that the handlers close over. *)
Record Options : Type :=
  { imports : Imports;
    filesInfo : list FileInfo;
    projectTitle : string }.

(** *** A state monad with exceptions *)

Inductive Result (A : Type) : Type :=
| Ok (a : A) (st : State)
| Throw (e : JsError) (st : State).
Arguments Ok {A} a st.
Arguments Throw {A} e st.

Definition M (A : Type) : Type := State -> Result A.

Definition ret {A} (a : A) : M A := fun st => Ok a st.

Definition bind {A B} (c : M A) (k : A -> M B) : M B :=
  fun st => match c st with
            | Ok a st' => k a st'
            | Throw e st' => Throw e st'
            end.

Definition throw {A} (e : JsError) : M A := fun st => Throw e st.
Definition get : M State := fun st => Ok st st.
Definition modify (f : State -> State) : M unit := fun st => Ok tt (f st).
Definition when (b : bool) (c : M unit) : M unit := if b then c else ret tt.

Declare Scope js_scope.
Delimit Scope js_scope with js.
Notation "x <- c ;; k" := (bind c (fun x => k))
  (at level 100, c at next level, right associativity) : js_scope.
Notation "c ;; k" := (bind c (fun _ => k))
  (at level 100, right associativity) : js_scope.

Definition final_state {A} (r : Result A) : State :=
  match r with Ok _ st | Throw _ st => st end.


(** *** Field updates *)

Definition set_classList (c : gset string) (d : Doc) : Doc :=
  {| classList := c; doc_title := doc_title d; root := root d; scripts := scripts d |}.
Definition set_doc_title (t : string) (d : Doc) : Doc :=
  {| classList := classList d; doc_title := t; root := root d; scripts := scripts d |}.
Definition set_root (r : bool) (d : Doc) : Doc :=
  {| classList := classList d; doc_title := doc_title d; root := r; scripts := scripts d |}.

(** [document.documentElement] *)
Definition document (st : State) : Doc :=
  match replacedDocumentElement st with
  | Some d => d
  | None => originalDocumentElement st
  end.

Definition with_documents (o : Doc) (r : option Doc) (st : State) : State :=
  {| history_location := history_location st; next_key := next_key st;
     previousLocation := previousLocation st;
     previousIsIsolated := previousIsIsolated st;
     originalDocumentElement := o; replacedDocumentElement := r;
     unmount := unmount st; timers := timers st; pending := pending st;
     log := log st |}.

(** An update of the document element in place, whichever it is. *)
Definition update_document (f : Doc -> Doc) (st : State) : State :=
  match replacedDocumentElement st with
  | Some d => with_documents (originalDocumentElement st) (Some (f d)) st
  | None => with_documents (f (originalDocumentElement st)) None st
  end.

Definition with_history (l : Location) (k : nat) (st : State) : State :=
  {| history_location := l; next_key := k;
     previousLocation := previousLocation st;
     previousIsIsolated := previousIsIsolated st;
     originalDocumentElement := originalDocumentElement st;
     replacedDocumentElement := replacedDocumentElement st;
     unmount := unmount st; timers := timers st; pending := pending st;
     log := log st |}.

Definition with_previous (l : Location) (i : option bool) (st : State) : State :=
  {| history_location := history_location st; next_key := next_key st;
     previousLocation := l; previousIsIsolated := i;
     originalDocumentElement := originalDocumentElement st;
     replacedDocumentElement := replacedDocumentElement st;
     unmount := unmount st; timers := timers st; pending := pending st;
     log := log st |}.

Definition with_unmount (u : option Ui) (st : State) : State :=
  {| history_location := history_location st; next_key := next_key st;
     previousLocation := previousLocation st;
     previousIsIsolated := previousIsIsolated st;
     originalDocumentElement := originalDocumentElement st;
     replacedDocumentElement := replacedDocumentElement st;
     unmount := u; timers := timers st; pending := pending st;
     log := log st |}.

Definition with_timers (t : list Timer) (st : State) : State :=
  {| history_location := history_location st; next_key := next_key st;
     previousLocation := previousLocation st;
     previousIsIsolated := previousIsIsolated st;
     originalDocumentElement := originalDocumentElement st;
     replacedDocumentElement := replacedDocumentElement st;
     unmount := unmount st; timers := t; pending := pending st;
     log := log st |}.

Definition with_pending (p : list (Promise Module)) (st : State) : State :=
  {| history_location := history_location st; next_key := next_key st;
     previousLocation := previousLocation st;
     previousIsIsolated := previousIsIsolated st;
     originalDocumentElement := originalDocumentElement st;
     replacedDocumentElement := replacedDocumentElement st;
     unmount := unmount st; timers := timers st; pending := p;
     log := log st |}.

Definition with_log (l : list Effect) (st : State) : State :=
  {| history_location := history_location st; next_key := next_key st;
     previousLocation := previousLocation st;
     previousIsIsolated := previousIsIsolated st;
     originalDocumentElement := originalDocumentElement st;
     replacedDocumentElement := replacedDocumentElement st;
     unmount := unmount st; timers := timers st; pending := pending st;
     log := l |}.

Definition emit (e : Effect) : M unit := modify (fun st => with_log (e :: log st) st).

(** *** The DOM calls *)

(** ASCII white space, which a class token may not hold. *)
Definition is_whitespace (a : ascii) : bool :=
  let n := N_of_ascii a in
  ((n =? 9) || (n =? 10) || (n =? 12) || (n =? 13) || (n =? 32))%N.

Fixpoint has_whitespace (s : string) : bool :=
  match s with
  | EmptyString => false
  | String a s' => is_whitespace a || has_whitespace s'
  end.

(** [document.body.classList.contains(c)] *)
Definition classList_contains (c : string) : M bool :=
  fun st => Ok (bool_decide (c ∈ classList (document st))) st.

(** [document.body.classList.remove(c)]; the source calls it only with a
    token it has just found in the list. *)
Definition classList_remove (c : string) : M unit :=
  modify (update_document (fun d => set_classList (classList d ∖ {[c]}) d)).

(** [document.body.classList.add(c)]: the DOM refuses the empty token and
    a token with white space. *)
Definition classList_add (c : string) : M unit :=
  if String.eqb c "" then throw {| message := "SyntaxError" |}
  else if has_whitespace c then throw {| message := "InvalidCharacterError" |}
  else modify (update_document (fun d => set_classList (classList d ∪ {[c]}) d)).

(** [document.body.innerHTML = ...] with the "nothing here" text: the
    children of the body, the root element among them, are gone. *)
Definition body_not_found : M unit :=
  (modify (update_document (set_root false)) ;; emit NotFoundPlaceholder)%js.

(** [setTimeout(callback, _)] *)
Definition setTimeout (t : Timer) : M unit :=
  modify (fun st => with_timers (timers st ++ [t]) st).

(** ** The handlers of [makeKCDWorkshopApp] *)

Definition MAX_SAFE_INTEGER : N := 9007199254740991.

(** [Number(s)]: the empty string and the plain decimal numerals up to
    [MAX_SAFE_INTEGER] are spelled out, the other strings are left to the
    browser; [None] is [NaN] or a number that is not a natural number. *)
Definition Number (b : Browser) (s : string) : option N :=
  match NilEmpty.uint_of_string s with
  | Some d =>
      if (N.of_uint d <=? MAX_SAFE_INTEGER)%N then Some (N.of_uint d)
      else Number_other b s
  | None => Number_other b s
  end.

(** [a === b] between the number of a file and the result of [Number] *)
Definition number_eqb (a b : option N) : bool :=
  match a, b with
  | Some x, Some y => N.eqb x y
  | _, _ => false
  end.

(** [previousIsIsolated !== isIsolated] *)
Definition flag_differs (previous : option bool) (isIsolated : bool) : bool :=
  match previous with
  | Some p => negb (Bool.eqb p isIsolated)
  | None => true
  end.

Definition escapeForClassList (name : string) : string :=
  JsString.encodeURIComponent (JsString.replaceAll "/" "_" name).

(** [a || b] on strings that may be undefined *)
Definition or_else (a b : option string) : option string :=
  match a with
  | Some EmptyString | None => b
  | Some _ => a
  end.

(** An item of [join]: [undefined] prints as the empty string. *)
Definition join_item (a : option string) : string :=
  match a with Some s => s | None => EmptyString end.

(** [xs.filter(Boolean)] on strings that may be null *)
Fixpoint filter_Boolean (xs : list (option string)) : list string :=
  match xs with
  | [] => []
  | Some (String a s) :: rest => String a s :: filter_Boolean rest
  | _ :: rest => filter_Boolean rest
  end.

(** The words of a text: its longest runs of characters that are not
    ASCII white space. *)
Fixpoint words (s : string) : list string :=
  match s with
  | EmptyString => []
  | String a r =>
      if is_whitespace a then words r
      else match r with
           | EmptyString => [String a EmptyString]
           | String b _ =>
               if is_whitespace b then String a EmptyString :: words r
               else match words r with
                    | w :: ws => String a w :: ws
                    | [] => [String a EmptyString]
                    end
           end
  end.

(** "Strip and collapse ASCII white space": every run of white space
    becomes one space, and the white space at both ends goes. *)
Definition strip_and_collapse (s : string) : string := JsString.join " " (words s).

(** [document.title] as the getter gives it: the text of the title
    element of the document in place, stripped and collapsed.  The setter
    puts its argument in the title element as it is. *)
Definition document_title (st : State) : string :=
  strip_and_collapse (doc_title (document st)).

(** The title computed in the callback of lines 154-172. *)
Definition title_of (info : option FileInfo) (projectTitle : string) : string :=
  JsString.join " | "
    (filter_Boolean
       [ match info with
         | Some i =>
             Some (JsString.join ""
                     [ match number i with
                       | Some (Npos p) => JsString.ofNumber (Npos p) ++ ". "
                       | _ => ""
                       end;
                       join_item (or_else (title i) (filename i)) ])
         | None => None
         end;
         Some projectTitle ]).

Section Handlers.

Variable browser : Browser.
Variable options : Options.

Local Open Scope js_scope.

Definition render (ui : Ui) : M unit :=
  st <- get ;;
  if root (document st) then
    match unmount st with
    | Some mounted => emit (Unmount mounted)
    | None => ret tt
    end ;;
    emit (RootRender ui) ;;
    modify (with_unmount (Some ui))
  else emit Alert.

(** The callback given to [then] in [renderIsolated], up to the point
    where the scripts of an HTML page are replayed ([ScriptReplay]
    below takes over from there). *)
Definition renderIsolated_then (m : Module) : M unit :=
  st <- get ;;
  if negb (same_object (history_location st) (previousLocation st)) then ret tt
  else
    match default_export m with
    | VFunction DO_NOT_RENDER => ret tt
    | VFunction f => render (createElement f)
    | VString markup =>
        modify (fun st => with_documents (originalDocumentElement st)
                            (Some (parseFromString browser markup)) st) ;;
        emit (ReplaceDocument markup)
    | _ => ret tt
    end.

(** [renderIsolated]: the import starts now, its callback runs when the
    promise settles. *)
Definition renderIsolated (isolatedModuleImport : DynamicImportFn) : M unit :=
  modify (fun st => with_pending (pending st ++ [isolatedModuleImport tt]) st).

Definition renderReact : M unit :=
  st <- get ;;
  match replacedDocumentElement st with
  | Some _ =>
      modify (with_documents (originalDocumentElement st) None) ;;
      emit RestoreOriginalDocument
  | None => ret tt
  end ;;
  emit RenderReactApp.

(** Lines 111-123 of [handleLocationChange]: the class of the body
    that names the current path. *)
Definition updateBodyClass (location : Location) : M unit :=
  st <- get ;;
  let previousPathname := pathname (previousLocation st) in
  let pathname' := pathname location in
  let prevClassName := escapeForClassList previousPathname in
  let newClassName := escapeForClassList pathname' in
  hasPrev <- classList_contains prevClassName ;;
  when hasPrev (classList_remove (escapeForClassList previousPathname)) ;;
  hasNew <- classList_contains newClassName ;;
  when (negb hasNew) (classList_add (escapeForClassList pathname')).

(** [pathname.startsWith('/isolated')] *)
Definition isIsolated (pathname' : string) : bool :=
  JsString.startsWith pathname' "/isolated".

(** Lines 127-136: the manifest entry of the path. *)
Definition findInfo (pathname' : string) : option FileInfo :=
  if isIsolated pathname' then
    let filePath' := JsString.replace "/isolated" "src" pathname' in
    List.find (fun i => String.eqb (filePath i) filePath') (filesInfo options)
  else
    let number' :=
      match JsString.last_item (JsString.split "/" pathname') with
      | Some segment => Number browser segment
      | None => None
      end in
    List.find (fun i => String.eqb (type i) "instruction"
                        && number_eqb (number i) number')
              (filesInfo options).

(** Lines 138-182 of [handleLocationChange]. *)
Definition renderLocation (location : Location) : M unit :=
  let pathname' := pathname location in
  let info := findInfo pathname' in
  match isIsolated pathname', info with
  | true, None => body_not_found
  | _, _ =>
      setTimeout (TitleTimer info) ;;
      match isIsolated pathname', info with
      | true, Some i =>
          match moduleWithDefaultExport (imports options) (filePath i) with
          | inl e => throw e
          | inr load => renderIsolated load
          end
      | _, _ =>
          st <- get ;;
          when (flag_differs (previousIsIsolated st) (isIsolated pathname')) renderReact
      end ;;
      modify (with_previous location (Some (isIsolated pathname')))
  end.

Definition handleLocationChange (location : Location) : M unit :=
  updateBodyClass location ;;
  renderLocation location.

(** The callback of a title timer. *)
Definition title_callback (info : option FileInfo) : M unit :=
  st <- get ;;
  let title := title_of info (projectTitle options) in
  when (negb (String.eqb (document_title st) title))
    (modify (update_document (set_doc_title title))).

End Handlers.

(** ** The page as a transition system *)

(** What can happen to the page: the history library moves to a new
    location and calls its listener; a promise [renderIsolated] waits for
    settles; a timer comes due; the shell calls the [render] callback it
    was given. *)
Inductive Event : Type :=
| Navigate (pathname : string)
| ImportSettles (i : nat)
| TimerFires (i : nat)
| ShellRenders.

Fixpoint remove_nth {A} (i : nat) (xs : list A) : list A :=
  match i, xs with
  | _, [] => []
  | O, _ :: rest => rest
  | S i', x :: rest => x :: remove_nth i' rest
  end.

(** An exception nobody catches ends the task; the state it leaves stays. *)
Definition run_task (c : M unit) (st : State) : State :=
  match c st with
  | Ok _ st' => st'
  | Throw e st' => with_log (Uncaught e :: log st') st'
  end.

Section Page.

Variable browser : Browser.
Variable options : Options.

Local Open Scope js_scope.

(** The side effects of the resolver's handlers. *)
Definition side_effect (e : SideEffect) : M unit :=
  match e with
  | ConsoleError filePath error => emit (Console filePath error)
  | TargetBlankifyInstructionLinks => setTimeout TargetBlankifyTimer
  end.

Fixpoint side_effects (es : list SideEffect) : M unit :=
  match es with
  | [] => ret tt
  | e :: rest => side_effect e ;; side_effects rest
  end.

(** A promise settles: the handlers of the resolver run, then the
    callback of [renderIsolated]; a rejection has no handler there. *)
Definition settle (p : Promise Module) : M unit :=
  side_effects (on_settle p) ;;
  match outcome p with
  | Fulfilled m => renderIsolated_then browser m
  | Rejected e => emit (UnhandledRejection e)
  end.

(** The history library on a transition: a new location object becomes
    [history.location], then the listener is called with it. *)
Definition transition (pathname' : string) : M unit :=
  st <- get ;;
  let location := {| key := next_key st; pathname := pathname' |} in
  modify (with_history location (S (next_key st))) ;;
  handleLocationChange browser options location.

Definition step (ev : Event) (st : State) : State :=
  match ev with
  | Navigate pathname' => run_task (transition pathname') st
  | ImportSettles i =>
      match pending st !! i with
      | Some p => run_task (settle p) (with_pending (remove_nth i (pending st)) st)
      | None => st
      end
  | TimerFires i =>
      match timers st !! i with
      | Some (TitleTimer info) =>
          run_task (title_callback options info)
                   (with_timers (remove_nth i (timers st)) st)
      | Some TargetBlankifyTimer => with_timers (remove_nth i (timers st)) st
      | None => st
      end
  | ShellRenders => run_task (render ShellUi) st
  end.

Definition run (evs : list Event) (st : State) : State := foldl (fun s ev => step ev s) st evs.

(** The state in which [makeKCDWorkshopApp] leaves lines 84-87, on a
    page loaded at [pathname'] with document [doc]. *)
Definition initial_state (pathname' : string) (doc : Doc) : State :=
  let location := {| key := 0; pathname := pathname' |} in
  {| history_location := location; next_key := 1;
     previousLocation := location; previousIsIsolated := None;
     originalDocumentElement := doc; replacedDocumentElement := None;
     unmount := None; timers := []; pending := []; log := [] |}.

(** [makeKCDWorkshopApp], from the registration to the first call of
    [handleLocationChange]; the start of the mock server does not touch
    the state of the model. *)
Definition makeKCDWorkshopApp (pathname' : string) (doc : Doc)
  : JsError + (gmap string LazyComponent * State) :=
  match registerLazyComponents (imports options) (filesInfo options) ∅ with
  | inl e => inl e
  | inr lazyComponents =>
      let st := initial_state pathname' doc in
      inr (lazyComponents,
           run_task (handleLocationChange browser options (history_location st)) st)
  end.

End Page.

(** ** The replay of the scripts of an isolated HTML page

    Lines 211-243 of [renderIsolated]: the loop over the script elements
    of the new document, as the transition system of one render pass.
    The asynchronous function advances by [Resume]; it stays where it is
    while the [await Promise.all(loadingScriptsQueue)] in front of it is
    not settled.  The browser fires the load event of an external script
    by [Load]. *)

Module ScriptReplay.

(** [script.getAttribute(name)] *)
Definition getAttribute (name : string) (s : Script) : option string :=
  match List.find (fun kv => String.eqb (fst kv) name) (attributes s) with
  | Some kv => Some (snd kv)
  | None => None
  end.

(** [script.getAttributeNames()] *)
Definition getAttributeNames (s : Script) : list string := List.map fst (attributes s).

(** The element made by [document.createElement('script')] and filled
    with the attributes and the text of [script]. *)
Definition newScript (script : Script) : Script :=
  {| attributes :=
       List.map (fun attrName =>
                   (attrName,
                    match getAttribute attrName script with
                    | Some v => v
                    | None => EmptyString
                    end))
                (getAttributeNames script);
     innerHTML := innerHTML script |}.

(** What can be observed of a pass.  [Inserted i s]: the new element
    [s] takes the place of the script at position [i]; an inline script
    runs at that moment, an external one starts loading.
    [LoadFired i]: the load event of the new element at position [i].
    [Completed]: the pass is past its last [await]. *)
Inductive Observed : Type :=
| Inserted (i : nat) (s : Script)
| LoadFired (i : nat)
| Completed.

Record Pass : Type :=
  { scripts_of : list Script;
    (** position of the loop in [scripts] *)
    position : nat;
    (** the positions whose load promise is in [loadingScriptsQueue] *)
    loadingScriptsQueue : list nat;
    (** the positions whose [onload] has run *)
    loaded : list nat;
    completed : bool;
    (** newest first *)
    trace : list Observed }.

Inductive Action : Type :=
| Resume
| Load (i : nat).

Definition mem (i : nat) (xs : list nat) : bool := existsb (Nat.eqb i) xs.

(** [Promise.all(loadingScriptsQueue)] is fulfilled. *)
Definition all_loaded (p : Pass) : bool :=
  forallb (fun i => mem i (loaded p)) (loadingScriptsQueue p).

Definition start (scripts : list Script) : Pass :=
  {| scripts_of := scripts; position := 0; loadingScriptsQueue := [];
     loaded := []; completed := false; trace := [] |}.

Definition step (a : Action) (p : Pass) : Pass :=
  match a with
  | Resume =>
      if completed p then p
      else
        match scripts_of p !! position p with
        | Some script =>
            if negb (hasAttribute "src" script) && negb (all_loaded p) then p
            else
              {| scripts_of := scripts_of p;
                 position := S (position p);
                 loadingScriptsQueue :=
                   if hasAttribute "src" script
                   then loadingScriptsQueue p ++ [position p]
                   else loadingScriptsQueue p;
                 loaded := loaded p;
                 completed := false;
                 trace := Inserted (position p) (newScript script) :: trace p |}
        | None =>
            if all_loaded p then
              {| scripts_of := scripts_of p; position := position p;
                 loadingScriptsQueue := loadingScriptsQueue p;
                 loaded := loaded p; completed := true;
                 trace := Completed :: trace p |}
            else p
        end
  | Load i =>
      if mem i (loadingScriptsQueue p) && negb (mem i (loaded p)) then
        {| scripts_of := scripts_of p; position := position p;
           loadingScriptsQueue := loadingScriptsQueue p;
           loaded := i :: loaded p; completed := completed p;
           trace := LoadFired i :: trace p |}
      else p
  end.

Definition run (acts : list Action) (p : Pass) : Pass := foldl (fun q a => step a q) p acts.

(** The number of elements inserted so far. *)
Fixpoint inserted (tr : list Observed) : nat :=
  match tr with
  | [] => 0
  | Inserted _ _ :: older => S (inserted older)
  | _ :: older => inserted older
  end.

(** The script at position [j] is external. *)
Definition external (scripts : list Script) (j : nat) : Prop :=
  exists s, scripts !! j = Some s /\ hasAttribute "src" s = true.

(** The script at position [i] is inline. *)
Definition inline (scripts : list Script) (i : nat) : Prop :=
  exists s, scripts !! i = Some s /\ hasAttribute "src" s = false.

(** The schedule in which every load event fires as soon as its script
    is in place. *)
Fixpoint eager (i : nat) (scripts : list Script) : list Action :=
  match scripts with
  | [] => [Resume]
  | s :: rest =>
      Resume :: (if hasAttribute "src" s then [Load i] else []) ++ eager (S i) rest
  end.

(** What the claim asks of every event of a pass, given the events
    before it: the elements are inserted in document order; when an
    inline script is inserted, the load events of all the external
    scripts before it have fired; when the pass completes, every script
    is in place and the load events of all the external scripts have
    fired. *)
Definition in_order (scripts : list Script) (ev : Observed) (older : list Observed) : Prop :=
  match ev with
  | Inserted i s =>
      i = inserted older /\
      (exists script, scripts !! i = Some script /\ s = newScript script) /\
      (inline scripts i ->
       forall j, j < i -> external scripts j -> In (LoadFired j) older)
  | LoadFired j => external scripts j /\ j < inserted older
  | Completed =>
      inserted older = length scripts /\
      forall j, external scripts j -> In (LoadFired j) older
  end.

Fixpoint ordered (scripts : list Script) (tr : list Observed) : Prop :=
  match tr with
  | [] => True
  | ev :: older => in_order scripts ev older /\ ordered scripts older
  end.

Record invariant (scripts : list Script) (p : Pass) : Prop :=
  { inv_scripts : scripts_of p = scripts;
    inv_position : position p = inserted (trace p);
    inv_bound : position p <= length scripts;
    inv_queue : forall j,
        mem j (loadingScriptsQueue p) = true <-> j < position p /\ external scripts j;
    inv_loaded : forall j, mem j (loaded p) = true -> In (LoadFired j) (trace p);
    inv_ordered : ordered scripts (trace p) }.

End ScriptReplay.

(** ** The properties in the words of the specification *)

(** "prefer a conventionally named export, fall back to the default
    export, fall back to a designated no-op renderable" *)
Definition is_present (a : Value) : bool :=
  match a with
  | VUndefined | VNull => false
  | _ => true
  end.

Definition preferred_export (m : Module) : Value :=
  if is_present (App m) then App m
  else if is_present (default_export m) then default_export m
  else VFunction DO_NOT_RENDER.

(** A path "ending in an HTML extension". *)
Definition has_html_extension (filePath : string) : bool :=
  JsString.endsWith filePath ".html".

(** What a loader yields: the default export of the module its promise is
    fulfilled with. *)
Definition yields (load : DynamicImportFn) (v : Value) : Prop :=
  exists m, outcome (load tt) = Fulfilled m /\ default_export m = v.

Definition rejects (load : DynamicImportFn) (e : JsError) : Prop :=
  outcome (load tt) = Rejected e.

(** A loader that is fulfilled with [m], and one that is rejected with [e]. *)
Definition fulfilled_with (m : Module) : DynamicImportFn :=
  fun _ => {| on_settle := []; outcome := Fulfilled m |}.
Definition rejected_with (e : JsError) : DynamicImportFn :=
  fun _ => {| on_settle := []; outcome := Rejected e |}.

(** A manifest entry that the registration loop takes. *)
Definition component_entry (filesInfo : list FileInfo) (path : string) : Prop :=
  exists info,
    In info filesInfo /\ filePath info = path /\
    includes componentExtensions (ext info) = true.

(** The class list that lines 114-123 leave, from the class list [c] they
    find. *)
Definition marked (prevClassName newClassName : string) (c : gset string) : gset string :=
  let c1 := if bool_decide (prevClassName ∈ c) then c ∖ {[prevClassName]} else c in
  if bool_decide (newClassName ∈ c1) then c1 else c1 ∪ {[newClassName]}.

(** What stays as it is in a pass over the class list. *)
Definition same_but_document (st st' : State) : Prop :=
  history_location st' = history_location st /\
  next_key st' = next_key st /\
  previousLocation st' = previousLocation st /\
  previousIsIsolated st' = previousIsIsolated st /\
  unmount st' = unmount st /\
  timers st' = timers st /\
  pending st' = pending st /\
  log st' = log st /\
  (replacedDocumentElement st = None -> replacedDocumentElement st' = None) /\
  doc_title (document st') = doc_title (document st) /\
  root (document st') = root (document st).

(** The number of calls of the shell renderer in a log. *)
Fixpoint shell_renders (l : list Effect) : nat :=
  match l with
  | [] => 0
  | RenderReactApp :: rest => S (shell_renders rest)
  | _ :: rest => shell_renders rest
  end.

(** [seg] is a decimal numeral of [n]. *)
Definition numeral (seg : string) (n : N) : Prop :=
  seg <> EmptyString /\
  exists d, NilEmpty.uint_of_string seg = Some d /\ N.of_uint d = n.

(** "the FileInfo with type instruction and number N" *)
Definition instruction_numbered (filesInfo : list FileInfo) (n : N) : option FileInfo :=
  List.find (fun i => String.eqb (type i) "instruction" && number_eqb (number i) (Some n))
            filesInfo.

(** "title if present, else the filename" *)
Definition title_or_filename (i : FileInfo) : string :=
  match title i with
  | Some (String a t) => String a t
  | _ => match filename i with Some f => f | None => EmptyString end
  end.

(** ** A small workshop, for the examples *)

Module Example.

Definition instruction3 : FileInfo :=
  {| ext := ".md"; filePath := "src/exercise/03.md"; number := Some 3%N;
     title := Some "useEffect"; filename := Some "03"; type := "instruction" |}.

Definition exercise3 : FileInfo :=
  {| ext := ".js"; filePath := "src/exercise/03.js"; number := Some 3%N;
     title := Some "useEffect"; filename := Some "03"; type := "exercise" |}.

Definition final3 : FileInfo :=
  {| ext := ".js"; filePath := "src/final/03.js"; number := Some 3%N;
     title := Some "useEffect"; filename := Some "03"; type := "final" |}.

Definition intro0 : FileInfo :=
  {| ext := ".md"; filePath := "src/exercise/00.md"; number := Some 0%N;
     title := Some "Welcome"; filename := Some "00"; type := "instruction" |}.

Definition page : FileInfo :=
  {| ext := ".html"; filePath := "src/examples/page.html"; number := None;
     title := None; filename := Some "page"; type := "example" |}.

Definition markup : string := "<html><body><script src='a.js'></script><script>go()</script></body></html>".

Definition externalScript : Script :=
  {| attributes := [("src", "a.js")]; innerHTML := "" |}.
Definition inlineScript : Script :=
  {| attributes := []; innerHTML := "go()" |}.

Definition workshop_imports : Imports :=
  {[ "src/exercise/03.md" :=
       fulfilled_with {| App := VUndefined; default_export := VFunction (Component 30) |};
     "src/exercise/00.md" :=
       fulfilled_with {| App := VUndefined; default_export := VFunction (Component 0) |};
     "src/exercise/03.js" :=
       fulfilled_with {| App := VFunction (Component 31); default_export := VUndefined |};
     "src/final/03.js" :=
       fulfilled_with {| App := VFunction (Component 32); default_export := VUndefined |};
     "src/examples/page.html" :=
       fulfilled_with {| App := VUndefined; default_export := VString markup |} ]}.

Definition workshop : Options :=
  {| imports := workshop_imports;
     filesInfo := [intro0; instruction3; exercise3; final3; page];
     projectTitle := "React Hooks" |}.

(** The page as the server sends it: no class on the body, the root
    element in place. *)
Definition index_html : Doc :=
  {| classList := ∅; doc_title := "React App"; root := true; scripts := [] |}.

Definition chrome : Browser :=
  {| Number_other := fun _ => None;
     parseFromString := fun _ =>
       {| classList := ∅; doc_title := ""; root := false;
          scripts := [externalScript; inlineScript] |} |}.

(** A browser in which the page of the example holds a root element. *)
Definition chrome_with_root : Browser :=
  {| Number_other := fun _ => None;
     parseFromString := fun _ =>
       {| classList := ∅; doc_title := ""; root := true;
          scripts := [externalScript; inlineScript] |} |}.

(** A manifest entry with a number and neither title nor filename. *)
Definition untitled5 : FileInfo :=
  {| ext := ".md"; filePath := "src/exercise/05.md"; number := Some 5%N;
     title := None; filename := None; type := "instruction" |}.

(** The registry that the registration builds for the workshop. *)
Definition registry : gmap string LazyComponent :=
  match registerLazyComponents workshop_imports (filesInfo workshop) ∅ with
  | inr lazyComponents => lazyComponents
  | inl _ => ∅
  end.

(** The state after [makeKCDWorkshopApp] on the page loaded at
    [pathname']. *)
Definition started_at (pathname' : string) : State :=
  match makeKCDWorkshopApp chrome workshop pathname' index_html with
  | inr (_, st) => st
  | inl _ => initial_state pathname' index_html
  end.

End Example.

(** ** Further notions, for the properties of the handlers *)

#[global] Instance Fn_eq_dec : EqDecision Fn.
Proof. solve_decision. Defined.

#[global] Instance Ui_eq_dec : EqDecision Ui.
Proof. solve_decision. Defined.

(** The root that a log leaves mounted, read from its oldest entry on:
    [Some (Some ui)] when [ui] is mounted, [Some None] when nothing is,
    and [None] when the log mounts a root over a mounted one or unmounts
    one that is not mounted. *)
Fixpoint mounted_after (l : list Effect) : option (option Ui) :=
  match l with
  | [] => Some None
  | e :: older =>
      match mounted_after older with
      | None => None
      | Some m =>
          match e with
          | RootRender ui => match m with None => Some (Some ui) | Some _ => None end
          | Unmount ui => if bool_decide (m = Some ui) then Some None else None
          | _ => Some m
          end
      end
  end.

(** The effects of [render] on the root. *)
Definition is_mount_effect (e : Effect) : bool :=
  match e with
  | RootRender _ | Unmount _ => true
  | _ => false
  end.

(** The module-level [unmount] is the one of the root the log leaves
    mounted. *)
Definition one_root (st : State) : Prop := mounted_after (log st) = Some (unmount st).

(** The recorded flag is the one of the recorded location. *)
Definition flag_agrees (st : State) : Prop :=
  match previousIsIsolated st with
  | None => True
  | Some b => b = isIsolated (pathname (previousLocation st))
  end.

(** An isolated HTML page is in place, over the original document [o]. *)
Definition page_over (o : Doc) (st : State) : Prop :=
  originalDocumentElement st = o /\ is_Some (replacedDocumentElement st).

(** A computation keeps [P], whether it returns or throws. *)
Definition preserves {A} (P : State -> Prop) (c : M A) : Prop :=
  forall st, P st -> P (final_state (c st)).

(** The text in front of the project title: the number, when there is one
    and it is not 0, and the title or the filename. *)
Definition label (i : FileInfo) : string :=
  match number i with
  | Some (Npos p) => JsString.ofNumber (Npos p) ++ ". "
  | _ => ""
  end ++ title_or_filename i.

(** Every character of [s] passes [p]. *)
Fixpoint all_chars (p : ascii -> bool) (s : string) : bool :=
  match s with
  | EmptyString => true
  | String a s' => p a && all_chars p s'
  end.

(** A character other than [c]. *)
Definition other_than (c a : ascii) : bool := negb (Ascii.eqb a c).

(** A character that a class token may hold and that is not [/]. *)
Definition token_char (a : ascii) : bool :=
  negb (is_whitespace a) && negb (Ascii.eqb a "/").

(** The value of a hexadecimal digit. *)
Definition hexValue (a : ascii) : N :=
  let n := N_of_ascii a in
  if (n <? 58)%N then (n - 48)%N else (n - 55)%N.

(** The inverse of [encodeURIComponent] on what it produces. *)
Fixpoint percentDecode (s : string) : string :=
  match s with
  | EmptyString => EmptyString
  | String a rest =>
      if Ascii.eqb a "%" then
        match rest with
        | String h (String l rest') =>
            String (ascii_of_N (16 * hexValue h + hexValue l)) (percentDecode rest')
        | _ => String a (percentDecode rest)
        end
      else String a (percentDecode rest)
  end.

(** ** The links of the instructions

    [targetBlankifyInstructionLinks], lines 313-327: the callback of its
    timer, on the anchors of the instruction container in document order,
    each anchor being the list of its attributes. *)

Module InstructionLinks.

(** [element.getAttribute(name)] *)
Definition getAttribute (name : string) (attrs : list (string * string)) : option string :=
  match List.find (fun kv => String.eqb (fst kv) name) attrs with
  | Some kv => Some (snd kv)
  | None => None
  end.

(** [element.setAttribute(name, value)]: the value of the attribute is
    replaced where it is, a new attribute comes last. *)
Fixpoint setAttribute (name value : string) (attrs : list (string * string))
  : list (string * string) :=
  match attrs with
  | [] => [(name, value)]
  | (k, v) :: rest =>
      if String.eqb k name then (k, value) :: rest
      else (k, v) :: setAttribute name value rest
  end.

(** The body of the loop over the anchors. *)
Definition blankify (anchor : list (string * string)) : list (string * string) :=
  setAttribute "rel" "noopener noreferrer nofollow" (setAttribute "target" "_blank" anchor).

(** The callback: [instructionContainer] is [None] when the document has
    no element of class [instruction-container]. *)
Definition callback (instructionContainer : option (list (list (string * string))))
  : option (list (list (string * string))) :=
  match instructionContainer with
  | None => None
  | Some anchors => Some (List.map blankify anchors)
  end.

End InstructionLinks.

(** * Theorems *)

(** ** The string functions on examples *)

Example endsWith_html : JsString.endsWith "src/index.html" "html" = true.
Proof. reflexivity. Qed.

Example encode_example :
  JsString.encodeURIComponent (JsString.replaceAll "/" "_" "/isolated/a b.js")
  = "_isolated_a%20b.js".
Proof. reflexivity. Qed.

Example split_example : JsString.split "/" "/exercise/3" = [""; "exercise"; "3"].
Proof. reflexivity. Qed.

Example replace_example : JsString.replace "/isolated" "src" "/isolated/App.js" = "src/App.js".
Proof. reflexivity. Qed.

(** ** The module resolver *)

Lemma nullish_preferred (m : Module) :
  nullish (nullish (App m) (default_export m)) (VFunction DO_NOT_RENDER)
  = preferred_export m.
Proof.
  unfold preferred_export.
  destruct (App m); simpl; try reflexivity; destruct (default_export m); reflexivity.
Qed.

Lemma resolver_js (imports : Imports) (filePath : string) (importFn : DynamicImportFn) :
  imports !! filePath = Some importFn ->
  JsString.endsWith filePath "html" = false ->
  moduleWithDefaultExport imports filePath = inr (importJS importFn filePath).
Proof.
  intros Hin Hext. unfold moduleWithDefaultExport. rewrite Hin, Hext. reflexivity.
Qed.

Lemma resolver_html (imports : Imports) (filePath : string) (importFn : DynamicImportFn) :
  imports !! filePath = Some importFn ->
  JsString.endsWith filePath "html" = true ->
  moduleWithDefaultExport imports filePath = inr importFn.
Proof.
  intros Hin Hext. unfold moduleWithDefaultExport. rewrite Hin, Hext. reflexivity.
Qed.

(** C3, as stated, fails: the path [src/foohtml] does not end in an HTML
    extension, yet the resolver hands back the raw loader, which yields
    the default export of the module although the module has an [App]
    export, and not the preferred one. *)
Lemma C3_counterexample :
  let m := {| App := VFunction (Component 1); default_export := VFunction (Component 2) |} in
  let imports : Imports := {[ "src/foohtml" := fulfilled_with m ]} in
  has_html_extension "src/foohtml" = false /\
  exists load,
    moduleWithDefaultExport imports "src/foohtml" = inr load /\
    yields load (VFunction (Component 2)) /\
    ~ yields load (preferred_export m).
Proof.
  simpl. split; [reflexivity |].
  exists (fulfilled_with
            {| App := VFunction (Component 1); default_export := VFunction (Component 2) |}).
  split; [| split].
  - unfold moduleWithDefaultExport. rewrite lookup_singleton_eq. reflexivity.
  - eexists; split; reflexivity.
  - intros [m' [Hm Hd]]. simpl in Hm. inversion Hm; subst m'. discriminate Hd.
Qed.

(** C3, amended: for every file path that does not end in the characters
    [html] and has an import whose promise is fulfilled with a module, the
    loader the resolver returns yields [App] if present, otherwise the
    default export if present, otherwise [DO_NOT_RENDER]. *)
Theorem C3_export_preference
    (imports : Imports) (filePath : string) (importFn : DynamicImportFn) (m : Module) :
  imports !! filePath = Some importFn ->
  JsString.endsWith filePath "html" = false ->
  outcome (importFn tt) = Fulfilled m ->
  exists load,
    moduleWithDefaultExport imports filePath = inr load /\
    yields load (preferred_export m).
Proof.
  intros Hin Hext Hm. exists (importJS importFn filePath). split.
  - exact (resolver_js imports filePath importFn Hin Hext).
  - unfold yields, importJS. rewrite Hm. eexists. split; [reflexivity |].
    simpl. apply nullish_preferred.
Qed.

Lemma C3_export_preference_witness :
  exists load,
    moduleWithDefaultExport
      {[ "src/exercise/01.js" :=
           fulfilled_with {| App := VUndefined; default_export := VFunction (Component 7) |} ]}
      "src/exercise/01.js" = inr load /\
    yields load (VFunction (Component 7)).
Proof.
  apply (C3_export_preference
           {[ "src/exercise/01.js" :=
                fulfilled_with {| App := VUndefined; default_export := VFunction (Component 7) |} ]}
           "src/exercise/01.js"
           (fulfilled_with {| App := VUndefined; default_export := VFunction (Component 7) |})
           {| App := VUndefined; default_export := VFunction (Component 7) |}).
  - apply lookup_singleton_eq.
  - reflexivity.
  - reflexivity.
Defined.

(** C4, as stated, fails: for [index.html] the resolver returns the raw
    loader, and the rejection of the import is the rejection of the
    loader. *)
Lemma C4_counterexample :
  let e := {| message := "Loading chunk 3 failed." |} in
  let imports : Imports := {[ "src/index.html" := rejected_with e ]} in
  exists load,
    moduleWithDefaultExport imports "src/index.html" = inr load /\
    rejects load e /\
    (forall v, ~ yields load v).
Proof.
  simpl. exists (rejected_with {| message := "Loading chunk 3 failed." |}).
  split; [| split].
  - unfold moduleWithDefaultExport. rewrite lookup_singleton_eq. reflexivity.
  - reflexivity.
  - intros v [m [Hm _]]. discriminate Hm.
Qed.

(** C4, amended: for every file path that does not end in the characters
    [html] and has an import, when the import is rejected the loader the
    resolver returns is fulfilled all the same, with the component that
    shows the message of the error. *)
Theorem C4_failure_absorbed
    (imports : Imports) (filePath : string) (importFn : DynamicImportFn) (e : JsError) :
  imports !! filePath = Some importFn ->
  JsString.endsWith filePath "html" = false ->
  outcome (importFn tt) = Rejected e ->
  exists load,
    moduleWithDefaultExport imports filePath = inr load /\
    yields load (VFunction (ErrorMessage (message e))) /\
    (forall e', ~ rejects load e').
Proof.
  intros Hin Hext He. exists (importJS importFn filePath). split; [| split].
  - exact (resolver_js imports filePath importFn Hin Hext).
  - unfold yields, importJS. rewrite He. eexists. split; reflexivity.
  - intros e'. unfold rejects, importJS. rewrite He. discriminate.
Qed.

Lemma C4_failure_absorbed_witness :
  exists load,
    moduleWithDefaultExport
      {[ "src/final/02.tsx" := rejected_with {| message := "Loading chunk 3 failed." |} ]}
      "src/final/02.tsx" = inr load /\
    yields load (VFunction (ErrorMessage "Loading chunk 3 failed.")) /\
    (forall e', ~ rejects load e').
Proof.
  apply (C4_failure_absorbed
           {[ "src/final/02.tsx" := rejected_with {| message := "Loading chunk 3 failed." |} ]}
           "src/final/02.tsx"
           (rejected_with {| message := "Loading chunk 3 failed." |})
           {| message := "Loading chunk 3 failed." |}).
  - apply lookup_singleton_eq.
  - reflexivity.
  - reflexivity.
Defined.

(** C10: for every file path that ends in the characters [html] (with or
    without a dot before them) and has an import, the resolver returns
    that import loader itself; nothing is normalised and nothing is
    absorbed, so the loader settles as the import does and a rejection of
    the import is a rejection of the loader. *)
Theorem C10_html_raw_loader
    (imports : Imports) (filePath : string) (importFn : DynamicImportFn) :
  imports !! filePath = Some importFn ->
  JsString.endsWith filePath "html" = true ->
  moduleWithDefaultExport imports filePath = inr importFn /\
  forall load,
    moduleWithDefaultExport imports filePath = inr load ->
    load tt = importFn tt /\
    forall e, outcome (importFn tt) = Rejected e -> rejects load e.
Proof.
  intros Hin Hext.
  pose proof (resolver_html imports filePath importFn Hin Hext) as Hraw.
  split; [exact Hraw |].
  intros load Hload. rewrite Hraw in Hload. inversion Hload; subst load.
  split; [reflexivity |]. intros e He. exact He.
Qed.

Lemma C10_html_raw_loader_witness :
  let importFn := rejected_with {| message := "404" |} in
  moduleWithDefaultExport {[ "foohtml" := importFn ]} "foohtml" = inr importFn /\
  forall load,
    moduleWithDefaultExport {[ "foohtml" := importFn ]} "foohtml" = inr load ->
    load tt = importFn tt /\
    forall e, outcome (importFn tt) = Rejected e -> rejects load e.
Proof.
  apply (C10_html_raw_loader
           {[ "foohtml" := rejected_with {| message := "404" |} ]} "foohtml"
           (rejected_with {| message := "404" |})).
  - apply lookup_singleton_eq.
  - reflexivity.
Defined.

(** ** The start-up registration *)

Lemma register_keys (imports : Imports) (filesInfo : list FileInfo) :
  forall (acc reg : gmap string LazyComponent),
    registerLazyComponents imports filesInfo acc = inr reg ->
    forall path,
      is_Some (reg !! path) <->
      is_Some (acc !! path) \/ component_entry filesInfo path.
Proof.
  induction filesInfo as [| info rest IH]; intros acc reg; cbn [registerLazyComponents].
  - intros Hreg path. inversion Hreg; subst reg. split; [auto |].
    intros [H | [i [[] _]]]. exact H.
  - destruct (includes componentExtensions (ext info)) eqn:Hext.
    + destruct (moduleWithDefaultExport imports (filePath info)) as [e | load] eqn:Hload;
        [intros Hreg; discriminate Hreg |].
      intros Hreg path. rewrite (IH _ _ Hreg path). split.
      * intros [Hacc | [i [Hi [Hp He]]]].
        -- destruct (decide (filePath info = path)) as [Heq | Hne].
           ++ right. exists info. split; [left; reflexivity | auto].
           ++ left. rewrite lookup_insert_ne in Hacc by exact Hne. exact Hacc.
        -- right. exists i. split; [right; exact Hi | auto].
      * intros [Hacc | [i [[Hi | Hi] [Hp He]]]].
        -- left. destruct (decide (filePath info = path)) as [Heq | Hne].
           ++ subst path. rewrite lookup_insert_eq. eauto.
           ++ rewrite lookup_insert_ne by exact Hne. exact Hacc.
        -- subst i. left. subst path. rewrite lookup_insert_eq. eauto.
        -- right. exists i. auto.
    + intros Hreg path. rewrite (IH _ _ Hreg path). split.
      * intros [Hacc | [i [Hi [Hp He]]]]; [left; exact Hacc |].
        right. exists i. split; [right; exact Hi | auto].
      * intros [Hacc | [i [[Hi | Hi] [Hp He]]]]; [left; exact Hacc | |].
        -- subst i. rewrite He in Hext. discriminate.
        -- right. exists i. auto.
Qed.

Lemma register_values (imports : Imports) (filesInfo : list FileInfo) :
  forall (acc reg : gmap string LazyComponent),
    registerLazyComponents imports filesInfo acc = inr reg ->
    (forall path c, acc !! path = Some c ->
       exists load, c = React_lazy load /\ moduleWithDefaultExport imports path = inr load) ->
    forall path c, reg !! path = Some c ->
      exists load, c = React_lazy load /\ moduleWithDefaultExport imports path = inr load.
Proof.
  induction filesInfo as [| info rest IH]; intros acc reg; cbn [registerLazyComponents].
  - intros Hreg Hacc. inversion Hreg; subst reg. exact Hacc.
  - destruct (includes componentExtensions (ext info)).
    + destruct (moduleWithDefaultExport imports (filePath info)) as [e | load] eqn:Hload;
        [intros Hreg; discriminate Hreg |].
      intros Hreg Hacc. apply (IH _ _ Hreg). intros path c Hc.
      destruct (decide (filePath info = path)) as [Heq | Hne].
      * subst path. rewrite lookup_insert_eq in Hc. inversion Hc; subst c. eauto.
      * rewrite lookup_insert_ne in Hc by exact Hne. eauto.
    + intros Hreg Hacc. apply (IH _ _ Hreg Hacc).
Qed.

(** The registration goes through as soon as every entry it takes has an
    import. *)
Lemma register_succeeds (imports : Imports) (filesInfo : list FileInfo) :
  (forall path, component_entry filesInfo path -> is_Some (imports !! path)) ->
  forall acc, exists reg, registerLazyComponents imports filesInfo acc = inr reg.
Proof.
  induction filesInfo as [| info rest IH]; intros Himp acc; cbn [registerLazyComponents].
  - eauto.
  - assert (Hrest : forall path, component_entry rest path -> is_Some (imports !! path)).
    { intros path [i [Hi [Hp He]]]. apply Himp. exists i. split; [right; exact Hi | auto]. }
    destruct (includes componentExtensions (ext info)) eqn:Hext.
    + destruct (Himp (filePath info)) as [importFn Hin].
      { exists info. split; [left; reflexivity | auto]. }
      unfold moduleWithDefaultExport. rewrite Hin.
      destruct (JsString.endsWith (filePath info) "html"); apply (IH Hrest).
    + apply (IH Hrest).
Qed.

(** C9: once the registration of [makeKCDWorkshopApp] is through, the
    registry has an entry under a file path exactly when the manifest has
    an entry with that file path whose extension is one of
    [componentExtensions]; the entry is the lazy component of the loader
    the resolver gives for that path. *)
Theorem C9_registry_matches_manifest
    (imports : Imports) (filesInfo : list FileInfo) (lazyComponents : gmap string LazyComponent) :
  registerLazyComponents imports filesInfo ∅ = inr lazyComponents ->
  (forall info,
     In info filesInfo -> includes componentExtensions (ext info) = true ->
     is_Some (lazyComponents !! filePath info)) /\
  (forall path c,
     lazyComponents !! path = Some c ->
     component_entry filesInfo path /\
     exists load, c = React_lazy load /\ moduleWithDefaultExport imports path = inr load).
Proof.
  intros Hreg. split.
  - intros info Hin Hext.
    apply (register_keys imports filesInfo ∅ lazyComponents Hreg (filePath info)).
    right. exists info. auto.
  - intros path c Hc. split.
    + destruct (proj1 (register_keys imports filesInfo ∅ lazyComponents Hreg path))
        as [Hempty | Hentry]; [eauto | | exact Hentry].
      rewrite lookup_empty in Hempty. destruct Hempty as [x Hx]. discriminate Hx.
    + apply (register_values imports filesInfo ∅ lazyComponents Hreg); [| exact Hc].
      intros p c' Hc'. rewrite lookup_empty in Hc'. discriminate Hc'.
Qed.

Lemma C9_registry_matches_manifest_witness :
  registerLazyComponents Example.workshop_imports (filesInfo Example.workshop) ∅
  = inr Example.registry /\
  (forall info,
     In info (filesInfo Example.workshop) ->
     includes componentExtensions (ext info) = true ->
     is_Some (Example.registry !! filePath info)) /\
  (forall path c,
     Example.registry !! path = Some c ->
     component_entry (filesInfo Example.workshop) path /\
     exists load,
       c = React_lazy load /\
       moduleWithDefaultExport Example.workshop_imports path = inr load).
Proof.
  assert (H : registerLazyComponents Example.workshop_imports (filesInfo Example.workshop) ∅
              = inr Example.registry) by (vm_compute; reflexivity).
  split; [exact H |].
  exact (C9_registry_matches_manifest Example.workshop_imports
           (filesInfo Example.workshop) Example.registry H).
Defined.

(** The page of the example is not a component: it has no entry. *)
Lemma registry_skips_html :
  Example.registry !! "src/examples/page.html" = None /\
  is_Some (Example.registry !! "src/exercise/03.js").
Proof. split; [vm_compute; reflexivity |]. vm_compute. eauto. Qed.

(** ** Escaped class names *)

Lemma has_whitespace_app (s t : string) :
  has_whitespace (s ++ t) = has_whitespace s || has_whitespace t.
Proof.
  induction s as [| a s IH]; simpl; [reflexivity |].
  rewrite IH. apply orb_assoc.
Qed.

Lemma encodeURIComponent_cons (a : ascii) (s : string) :
  JsString.encodeURIComponent (String a s)
  = JsString.encodeURIComponent (String a EmptyString) ++ JsString.encodeURIComponent s.
Proof.
  simpl. destruct (JsString.unreserved a); reflexivity.
Qed.

Lemma encode_char_no_whitespace (a : ascii) :
  has_whitespace (JsString.encodeURIComponent (String a EmptyString)) = false.
Proof.
  destruct a as [b0 b1 b2 b3 b4 b5 b6 b7].
  destruct b0, b1, b2, b3, b4, b5, b6, b7; vm_compute; reflexivity.
Qed.

Lemma encodeURIComponent_no_whitespace (s : string) :
  has_whitespace (JsString.encodeURIComponent s) = false.
Proof.
  induction s as [| a s IH]; [reflexivity |].
  rewrite encodeURIComponent_cons, has_whitespace_app, IH, encode_char_no_whitespace.
  reflexivity.
Qed.

Lemma escapeForClassList_no_whitespace (name : string) :
  has_whitespace (escapeForClassList name) = false.
Proof. apply encodeURIComponent_no_whitespace. Qed.

Lemma escapeForClassList_nonempty (name : string) :
  name <> EmptyString -> String.eqb (escapeForClassList name) "" = false.
Proof.
  destruct name as [| a s]; [congruence | intros _].
  unfold escapeForClassList. simpl.
  destruct (JsString.unreserved _); reflexivity.
Qed.

Lemma classList_add_escaped (name : string) :
  name <> EmptyString ->
  classList_add (escapeForClassList name)
  = modify (update_document
              (fun d => set_classList (classList d ∪ {[escapeForClassList name]}) d)).
Proof.
  intros Hne. unfold classList_add.
  rewrite (escapeForClassList_nonempty name Hne), escapeForClassList_no_whitespace.
  reflexivity.
Qed.

(** ** The document in place *)

Lemma document_update (f : Doc -> Doc) (st : State) :
  document (update_document f st) = f (document st).
Proof. unfold document, update_document. destruct (replacedDocumentElement st); reflexivity. Qed.

Lemma marked_new (prevClassName newClassName : string) (c : gset string) :
  newClassName ∈ marked prevClassName newClassName c.
Proof.
  unfold marked.
  destruct (bool_decide (prevClassName ∈ c));
    (destruct (bool_decide (newClassName ∈ _)) eqn:E2;
     [apply bool_decide_eq_true in E2 | apply bool_decide_eq_false in E2]);
    set_unfold; tauto.
Qed.

Lemma marked_prev (prevClassName newClassName : string) (c : gset string) :
  prevClassName <> newClassName ->
  prevClassName ∉ marked prevClassName newClassName c.
Proof.
  intros Hne. unfold marked.
  destruct (bool_decide (prevClassName ∈ c)) eqn:E1;
    [apply bool_decide_eq_true in E1 | apply bool_decide_eq_false in E1];
    (destruct (bool_decide (newClassName ∈ _)) eqn:E2;
     [apply bool_decide_eq_true in E2 | apply bool_decide_eq_false in E2]);
    set_unfold; tauto.
Qed.

Lemma same_but_document_update (f : Doc -> Doc) (st : State) :
  (forall d, doc_title (f d) = doc_title d /\ root (f d) = root d) ->
  same_but_document st (update_document f st).
Proof.
  intros Hf. unfold same_but_document. rewrite document_update.
  destruct (Hf (document st)) as [Ht Hr].
  unfold update_document. destruct (replacedDocumentElement st); simpl; repeat split; auto; discriminate.
Qed.

Lemma same_but_document_refl (st : State) : same_but_document st st.
Proof. unfold same_but_document. repeat split; auto. Qed.

Lemma same_but_document_trans (a b c : State) :
  same_but_document a b -> same_but_document b c -> same_but_document a c.
Proof.
  unfold same_but_document. intros H1 H2.
  destruct H1 as (?&?&?&?&?&?&?&?&?&?&?), H2 as (?&?&?&?&?&?&?&?&?&?&?).
  repeat split; try congruence; auto.
Qed.

(** Lines 111-123 on a path that is not empty: nothing is thrown, and only
    the class list of the body in place changes. *)
Lemma updateBodyClass_spec (location : Location) (st : State) :
  pathname location <> EmptyString ->
  exists st',
    updateBodyClass location st = Ok tt st' /\
    same_but_document st st' /\
    classList (document st')
    = marked (escapeForClassList (pathname (previousLocation st)))
             (escapeForClassList (pathname location))
             (classList (document st)).
Proof.
  intros Hne. unfold updateBodyClass.
  rewrite (classList_add_escaped _ Hne).
  unfold bind, get, classList_contains, classList_remove, when, modify, ret, marked.
  set (prev := escapeForClassList (pathname (previousLocation st))).
  set (new := escapeForClassList (pathname location)).
  destruct (bool_decide (prev ∈ classList (document st))) eqn:Hp.
  - rewrite document_update. simpl.
    destruct (bool_decide (new ∈ classList (document st) ∖ {[prev]})) eqn:Hn; simpl.
    + eexists. split; [reflexivity |]. split.
      * apply same_but_document_update. intros d. split; reflexivity.
      * rewrite document_update. reflexivity.
    + eexists. split; [reflexivity |]. split.
      * eapply same_but_document_trans;
          apply same_but_document_update; intros d; split; reflexivity.
      * rewrite !document_update. reflexivity.
  - destruct (bool_decide (new ∈ classList (document st))) eqn:Hn; simpl.
    + eexists. split; [reflexivity |]. split; [apply same_but_document_refl | reflexivity].
    + eexists. split; [reflexivity |]. split.
      * apply same_but_document_update. intros d. split; reflexivity.
      * rewrite document_update. reflexivity.
Qed.

(** ** The four ways through lines 138-182 *)

Section RenderLocation.

Variable browser : Browser.
Variable options : Options.
Variable location : Location.
Variable st : State.

Lemma renderLocation_not_found :
  isIsolated (pathname location) = true ->
  findInfo browser options (pathname location) = None ->
  renderLocation browser options location st
  = Ok tt (with_log (NotFoundPlaceholder :: log st) (update_document (set_root false) st)).
Proof.
  intros Hiso Hinfo. unfold renderLocation. rewrite Hiso, Hinfo.
  unfold body_not_found, bind, modify, emit. simpl.
  destruct (replacedDocumentElement st) eqn:Hr; unfold update_document; rewrite Hr; reflexivity.
Qed.

Lemma renderLocation_isolated (i : FileInfo) (load : DynamicImportFn) :
  isIsolated (pathname location) = true ->
  findInfo browser options (pathname location) = Some i ->
  moduleWithDefaultExport (imports options) (filePath i) = inr load ->
  renderLocation browser options location st
  = Ok tt (with_previous location (Some true)
             (with_pending (pending st ++ [load tt])
                (with_timers (timers st ++ [TitleTimer (Some i)]) st))).
Proof.
  intros Hiso Hinfo Hload. unfold renderLocation. rewrite Hiso, Hinfo, Hload. reflexivity.
Qed.

Lemma renderLocation_missing_import (i : FileInfo) (e : JsError) :
  isIsolated (pathname location) = true ->
  findInfo browser options (pathname location) = Some i ->
  moduleWithDefaultExport (imports options) (filePath i) = inl e ->
  renderLocation browser options location st
  = Throw e (with_timers (timers st ++ [TitleTimer (Some i)]) st).
Proof.
  intros Hiso Hinfo Hload. unfold renderLocation. rewrite Hiso, Hinfo, Hload. reflexivity.
Qed.

Lemma renderLocation_shell_same :
  isIsolated (pathname location) = false ->
  previousIsIsolated st = Some false ->
  renderLocation browser options location st
  = Ok tt (with_previous location (Some false)
             (with_timers
                (timers st ++ [TitleTimer (findInfo browser options (pathname location))])
                st)).
Proof.
  intros Hiso Hprev. unfold renderLocation. rewrite Hiso.
  unfold bind, setTimeout, modify, get, when. simpl. rewrite Hprev. simpl.
  destruct (findInfo browser options (pathname location)); reflexivity.
Qed.

Lemma renderLocation_shell_enter :
  isIsolated (pathname location) = false ->
  previousIsIsolated st <> Some false ->
  renderLocation browser options location st
  = let st1 :=
      with_timers
        (timers st ++ [TitleTimer (findInfo browser options (pathname location))]) st in
    let st2 :=
      match replacedDocumentElement st with
      | Some _ =>
          with_log (RestoreOriginalDocument :: log st)
            (with_documents (originalDocumentElement st) None st1)
      | None => st1
      end in
    Ok tt (with_previous location (Some false) (with_log (RenderReactApp :: log st2) st2)).
Proof.
  intros Hiso Hprev. unfold renderLocation. rewrite Hiso.
  assert (Hflag : flag_differs (previousIsIsolated st) false = true).
  { destruct (previousIsIsolated st) as [[] |]; try reflexivity. congruence. }
  unfold bind, setTimeout, modify, get, when. simpl. rewrite Hflag.
  unfold renderReact, bind, get, emit, modify. simpl.
  destruct (findInfo browser options (pathname location));
    destruct (replacedDocumentElement st) eqn:Hr; simpl; reflexivity.
Qed.

End RenderLocation.

(** ** One pass of [handleLocationChange] *)

Lemma isIsolated_nonempty (pathname' : string) :
  isIsolated pathname' = true -> pathname' <> EmptyString.
Proof. intros H ->. discriminate H. Qed.

Lemma find_absent {A} (f : A -> bool) (l : list A) :
  (forall x, In x l -> f x = false) -> List.find f l = None.
Proof.
  induction l as [| a l IH]; intros H; simpl; [reflexivity |].
  rewrite (H a (or_introl eq_refl)). apply IH. intros x Hx. apply H. right. exact Hx.
Qed.

Lemma handleLocationChange_split
    (browser : Browser) (options : Options) (location : Location) (st : State) :
  pathname location <> EmptyString ->
  exists st1,
    handleLocationChange browser options location st
    = renderLocation browser options location st1 /\
    same_but_document st st1 /\
    classList (document st1)
    = marked (escapeForClassList (pathname (previousLocation st)))
             (escapeForClassList (pathname location))
             (classList (document st)).
Proof.
  intros Hne. destruct (updateBodyClass_spec location st Hne) as (st1 & Hrun & Hsame & Hcl).
  exists st1. split; [| split; assumption].
  unfold handleLocationChange, bind. rewrite Hrun. reflexivity.
Qed.

(** C5: on a path that starts with [/isolated] and whose source path is
    the file path of no entry of the manifest, the handler puts the
    "nothing here" text in the body and returns: that is the only effect
    of the pass, no timer is set for the title, the isolated renderer and
    the shell renderer are not called, and the recorded previous location
    and flag stay as they were. *)
Theorem C5_isolated_not_found
    (browser : Browser) (options : Options) (location : Location) (st : State) :
  JsString.startsWith (pathname location) "/isolated" = true ->
  (forall info,
     In info (filesInfo options) ->
     filePath info <> JsString.replace "/isolated" "src" (pathname location)) ->
  exists st',
    handleLocationChange browser options location st = Ok tt st' /\
    log st' = NotFoundPlaceholder :: log st /\
    root (document st') = false /\
    timers st' = timers st /\
    pending st' = pending st /\
    shell_renders (log st') = shell_renders (log st) /\
    unmount st' = unmount st /\
    previousLocation st' = previousLocation st /\
    previousIsIsolated st' = previousIsIsolated st.
Proof.
  intros Hiso Habsent.
  assert (Hinfo : findInfo browser options (pathname location) = None).
  { unfold findInfo, isIsolated. rewrite Hiso. apply find_absent.
    intros info Hin. apply String.eqb_neq. apply Habsent. exact Hin. }
  destruct (handleLocationChange_split browser options location st
              (isIsolated_nonempty _ Hiso)) as (st1 & Hrun & Hsame & _).
  rewrite Hrun, (renderLocation_not_found browser options location st1 Hiso Hinfo).
  destruct Hsame as (_ & _ & Hpl & Hpi & Hun & Hti & Hpe & Hlog & _).
  eexists. split; [reflexivity |].
  assert (Hfields : forall f,
            unmount (update_document f st1) = unmount st1 /\
            timers (update_document f st1) = timers st1 /\
            pending (update_document f st1) = pending st1 /\
            previousLocation (update_document f st1) = previousLocation st1 /\
            previousIsIsolated (update_document f st1) = previousIsIsolated st1).
  { intros f. unfold update_document. destruct (replacedDocumentElement st1); simpl; auto. }
  destruct (Hfields (set_root false)) as (F1 & F2 & F3 & F4 & F5).
  simpl. rewrite Hlog. repeat split; try reflexivity; try congruence.
  change (root (document (update_document (set_root false) st1)) = false).
  rewrite document_update. reflexivity.
Qed.

Lemma C5_isolated_not_found_witness :
  let location := {| key := 1; pathname := "/isolated/exercise/99.js" |} in
  let st := initial_state "/3" Example.index_html in
  exists st',
    handleLocationChange Example.chrome Example.workshop location st = Ok tt st' /\
    log st' = NotFoundPlaceholder :: log st /\
    root (document st') = false /\
    timers st' = timers st /\
    pending st' = pending st /\
    shell_renders (log st') = shell_renders (log st) /\
    unmount st' = unmount st /\
    previousLocation st' = previousLocation st /\
    previousIsIsolated st' = previousIsIsolated st.
Proof.
  apply (C5_isolated_not_found Example.chrome Example.workshop
           {| key := 1; pathname := "/isolated/exercise/99.js" |}
           (initial_state "/3" Example.index_html)).
  - reflexivity.
  - intros info Hin. simpl in Hin.
    destruct Hin as [<- | [<- | [<- | [<- | [<- | []]]]]]; vm_compute; discriminate.
Defined.

(** Lines 138-182 leave the class list of the body alone as long as the
    original document is in place. *)
Lemma renderLocation_classList
    (browser : Browser) (options : Options) (location : Location) (st : State) :
  replacedDocumentElement st = None ->
  classList (document (final_state (renderLocation browser options location st)))
  = classList (document st).
Proof.
  intros Hr.
  destruct (isIsolated (pathname location)) eqn:Hiso.
  - destruct (findInfo browser options (pathname location)) as [i |] eqn:Hinfo.
    + destruct (moduleWithDefaultExport (imports options) (filePath i)) as [e | load] eqn:Hload.
      * rewrite (renderLocation_missing_import _ _ _ _ i e Hiso Hinfo Hload). reflexivity.
      * rewrite (renderLocation_isolated _ _ _ _ i load Hiso Hinfo Hload). reflexivity.
    + rewrite (renderLocation_not_found _ _ _ _ Hiso Hinfo). simpl.
      change (classList (document (update_document (set_root false) st))
              = classList (document st)).
      rewrite document_update. reflexivity.
  - destruct (decide (previousIsIsolated st = Some false)) as [Hprev | Hprev].
    + rewrite (renderLocation_shell_same _ _ _ _ Hiso Hprev). reflexivity.
    + rewrite (renderLocation_shell_enter _ _ _ _ Hiso Hprev). rewrite Hr.
      unfold document. simpl. rewrite Hr. reflexivity.
Qed.

(** C7, as stated, fails: [/a/b] and [/a_b] are different paths with the
    same escaped class, so after the navigation from the first to the
    second the class of the first is in the class list of the body. *)
Lemma C7_counterexample :
  let st0 := Example.started_at "/a/b" in
  let st1 := run Example.chrome Example.workshop [Navigate "/a_b"] st0 in
  "/a/b" <> "/a_b" /\
  pathname (previousLocation st1) = "/a_b" /\
  escapeForClassList "/a/b" ∈ classList (document st1).
Proof.
  intros st0 st1. split; [discriminate |]. split; [reflexivity |].
  apply (proj1 (bool_decide_eq_true _)). vm_compute. reflexivity.
Qed.

(** The same claim fails in a second way, which the amended statement
    leaves alone: when the pass brings the original document back in
    place of an isolated HTML page, the body in place afterwards is the
    old one, with the class of the old path and without the new one. *)
Lemma body_class_after_restore :
  let st0 := Example.started_at "/isolated/examples/page.html" in
  let st1 := run Example.chrome Example.workshop [ImportSettles 0; Navigate "/3"] st0 in
  pathname (previousLocation st1) = "/3" /\
  elements (classList (document st1)) = [escapeForClassList "/isolated/examples/page.html"].
Proof. vm_compute. split; reflexivity. Qed.

(** C7, amended: after the handling of a navigation to a path B that is
    not empty, with A the path of the recorded previous location and the
    original document in place, the class list of the body holds the
    escaped class of B, and does not hold the escaped class of A unless
    the two escaped classes are the same.  This is so whether the pass
    returns or throws. *)
Theorem C7_body_class
    (browser : Browser) (options : Options) (location : Location) (st : State) :
  pathname location <> EmptyString ->
  replacedDocumentElement st = None ->
  let st' := final_state (handleLocationChange browser options location st) in
  let A := pathname (previousLocation st) in
  let B := pathname location in
  escapeForClassList B ∈ classList (document st') /\
  (escapeForClassList A <> escapeForClassList B ->
   escapeForClassList A ∉ classList (document st')).
Proof.
  intros Hne Hr st' A B. subst st'.
  destruct (handleLocationChange_split browser options location st Hne)
    as (st1 & Hrun & Hsame & Hcl).
  assert (Hr1 : replacedDocumentElement st1 = None).
  { destruct Hsame as (_ & _ & _ & _ & _ & _ & _ & _ & H & _). exact (H Hr). }
  rewrite Hrun, (renderLocation_classList browser options location st1 Hr1), Hcl.
  split.
  - apply marked_new.
  - intros Hdiff. apply marked_prev. exact Hdiff.
Qed.

Lemma C7_body_class_witness :
  let location := {| key := 1; pathname := "/4" |} in
  let st := initial_state "/3" (set_classList {[ "_3" ]} Example.index_html) in
  let st' := final_state (handleLocationChange Example.chrome Example.workshop location st) in
  escapeForClassList "/4" ∈ classList (document st') /\
  (escapeForClassList "/3" <> escapeForClassList "/4" ->
   escapeForClassList "/3" ∉ classList (document st')).
Proof.
  apply (C7_body_class Example.chrome Example.workshop
           {| key := 1; pathname := "/4" |}
           (initial_state "/3" (set_classList {[ "_3" ]} Example.index_html))).
  - discriminate.
  - reflexivity.
Defined.

(** ** Which renderer a pass calls *)

(** C8, as stated, fails: on the first pass, on an isolated path with a
    matching file, the previous flag is unset, the isolated renderer is
    called, and the shell renderer is not. *)
Lemma C8_counterexample :
  let st0 := initial_state "/isolated/exercise/03.js" Example.index_html in
  let st1 := Example.started_at "/isolated/exercise/03.js" in
  previousIsIsolated st0 = None /\
  flag_differs (previousIsIsolated st0) (isIsolated "/isolated/exercise/03.js") = true /\
  length (pending st1) = 1 /\
  shell_renders (log st1) = 0.
Proof. vm_compute. repeat split; reflexivity. Qed.

(** C8, amended: on a pass over a path that is not empty,
    - if the path is isolated and has a matching file with an import, the
      isolated renderer is called, and the shell renderer is not;
    - if the path is not isolated, the shell renderer is called exactly
      when the recorded previous flag is not [false], that is when the
      last recorded pass was isolated or no pass is recorded yet, and the
      isolated renderer is not called;
    - so the second of two non-isolated passes in a row calls neither. *)
Theorem C8_renderer_choice
    (browser : Browser) (options : Options) (location : Location) (st : State) :
  pathname location <> EmptyString ->
  let st' := final_state (handleLocationChange browser options location st) in
  (forall i load,
     isIsolated (pathname location) = true ->
     findInfo browser options (pathname location) = Some i ->
     moduleWithDefaultExport (imports options) (filePath i) = inr load ->
     pending st' = (pending st ++ [load tt])%list /\
     shell_renders (log st') = shell_renders (log st)) /\
  (isIsolated (pathname location) = false ->
   pending st' = pending st /\
   shell_renders (log st')
   = shell_renders (log st)
     + (if flag_differs (previousIsIsolated st) false then 1 else 0) /\
   previousIsIsolated st' = Some false /\
   forall location2,
     pathname location2 <> EmptyString ->
     isIsolated (pathname location2) = false ->
     let st'' := final_state (handleLocationChange browser options location2 st') in
     pending st'' = pending st' /\
     shell_renders (log st'') = shell_renders (log st')).
Proof.
  intros Hne st'.
  assert (Hshell : forall loc s,
            pathname loc <> EmptyString ->
            isIsolated (pathname loc) = false ->
            let s' := final_state (handleLocationChange browser options loc s) in
            pending s' = pending s /\
            shell_renders (log s')
            = shell_renders (log s)
              + (if flag_differs (previousIsIsolated s) false then 1 else 0) /\
            previousIsIsolated s' = Some false).
  { intros loc s Hn Hiso s'. subst s'.
    destruct (handleLocationChange_split browser options loc s Hn)
      as (s1 & Hrun & Hsame & _).
    destruct Hsame as (_ & _ & _ & Hpi & _ & _ & Hpe & Hlog & _).
    rewrite Hrun.
    destruct (decide (previousIsIsolated s1 = Some false)) as [Hprev | Hprev].
    - rewrite (renderLocation_shell_same _ _ _ _ Hiso Hprev). simpl.
      rewrite <- Hpi, Hprev, Hpe, Hlog. simpl. repeat split; lia.
    - rewrite (renderLocation_shell_enter _ _ _ _ Hiso Hprev). simpl.
      assert (Hflag : flag_differs (previousIsIsolated s) false = true).
      { rewrite <- Hpi. destruct (previousIsIsolated s1) as [[] |]; try reflexivity.
        congruence. }
      rewrite Hflag.
      destruct (replacedDocumentElement s1); simpl; rewrite Hpe, Hlog;
        repeat split; lia. }
  split.
  - intros i load Hiso Hinfo Hload. subst st'.
    destruct (handleLocationChange_split browser options location st Hne)
      as (st1 & Hrun & Hsame & _).
    destruct Hsame as (_ & _ & _ & _ & _ & _ & Hpe & Hlog & _).
    rewrite Hrun, (renderLocation_isolated _ _ _ _ i load Hiso Hinfo Hload). simpl.
    rewrite Hpe, Hlog. split; reflexivity.
  - intros Hiso.
    destruct (Hshell location st Hne Hiso) as (H1 & H2 & H3).
    fold st' in H1, H2, H3.
    split; [exact H1 | split; [exact H2 | split; [exact H3 |]]].
    intros location2 Hne2 Hiso2 st''.
    destruct (Hshell location2 st' Hne2 Hiso2) as (G1 & G2 & _).
    fold st'' in G1, G2. split; [exact G1 |].
    rewrite G2, H3. simpl. lia.
Qed.

Lemma C8_renderer_choice_witness :
  let location := {| key := 1; pathname := "/4" |} in
  let st := Example.started_at "/3" in
  let st' := final_state (handleLocationChange Example.chrome Example.workshop location st) in
  isIsolated (pathname location) = false /\
  previousIsIsolated st = Some false /\
  shell_renders (log st) = 1 /\
  shell_renders (log st') = 1.
Proof.
  intros location st st'.
  pose proof (C8_renderer_choice Example.chrome Example.workshop location st) as H.
  destruct H as [_ H]; [discriminate |].
  destruct (H eq_refl) as (_ & Hcount & _).
  fold st' in Hcount.
  split; [reflexivity |]. split; [reflexivity |]. split; [reflexivity |].
  rewrite Hcount. reflexivity.
Defined.

(** A pass from the shell to an isolated file with an import: the import
    starts, and the shell renderer is not called again. *)
Lemma isolated_pass_example :
  let st := Example.started_at "/3" in
  let st' := step Example.chrome Example.workshop (Navigate "/isolated/exercise/03.js") st in
  previousIsIsolated st = Some false /\
  length (pending st') = 1 /\
  shell_renders (log st') = shell_renders (log st) /\
  previousIsIsolated st' = Some true.
Proof. vm_compute. repeat split; reflexivity. Qed.

(** ** The title of the document *)

Lemma ofNumber_numeral (n : N) : numeral (JsString.ofNumber n) n.
Proof.
  unfold numeral, JsString.ofNumber. split.
  - destruct (N.to_uint n) eqn:E; simpl; discriminate.
  - exists (N.to_uint n). split; [| apply DecimalN.Unsigned.of_to].
    assert (Hnn : N.to_uint n <> Decimal.Nil).
    { destruct n as [| p]; simpl; [discriminate |].
      unfold Pos.to_uint. intros H.
      pose proof (DecimalPos.Unsigned.to_of (Pos.to_uint p)) as _.
      pose proof (DecimalPos.Unsigned.of_to p) as Hp.
      unfold Pos.to_uint in Hp. rewrite H in Hp. discriminate Hp. }
    pose proof (NilZero.usu _ Hnn) as H.
    unfold NilZero.uint_of_string in H.
    destruct (NilZero.string_of_uint (N.to_uint n)); [discriminate | exact H].
Qed.

Lemma Number_numeral (browser : Browser) (seg : string) (n : N) :
  numeral seg n -> (n <= MAX_SAFE_INTEGER)%N -> Number browser seg = Some n.
Proof.
  intros (_ & d & Hd & Hn) Hle. unfold Number. rewrite Hd, Hn.
  apply N.leb_le in Hle. rewrite Hle. reflexivity.
Qed.

Lemma findInfo_instruction (browser : Browser) (options : Options) (pathname' seg : string) (n : N) :
  isIsolated pathname' = false ->
  JsString.last_item (JsString.split "/" pathname') = Some seg ->
  numeral seg n -> (n <= MAX_SAFE_INTEGER)%N ->
  findInfo browser options pathname' = instruction_numbered (filesInfo options) n.
Proof.
  intros Hiso Hseg Hnum Hle. unfold findInfo. rewrite Hiso, Hseg.
  rewrite (Number_numeral browser seg n Hnum Hle). reflexivity.
Qed.













Lemma step_Navigate (browser : Browser) (options : Options) (pathname' : string) (st : State) :
  step browser options (Navigate pathname') st
  = let location := {| key := next_key st; pathname := pathname' |} in
    run_task (handleLocationChange browser options location)
             (with_history location (S (next_key st)) st).
Proof. reflexivity. Qed.



(** The title reads back stripped and collapsed: for an entry with
    neither title nor filename the two spaces around the missing name
    read as one. *)
Lemma title_reads_collapsed :
  let options :=
    {| imports := ∅; filesInfo := [Example.untitled5]; projectTitle := "P" |} in
  let st :=
    run Example.chrome options [Navigate "/5"; TimerFires 0]
        (initial_state "/" Example.index_html) in
  doc_title (document st) = "5.  | P" /\
  document_title st = "5. | P".
Proof. vm_compute. split; reflexivity. Qed.

(** The project title, too, is left out when it is empty, together with
    the separator. *)
Lemma title_of_empty_project :
  title_of (Some Example.instruction3) "" = "3. useEffect".
Proof. reflexivity. Qed.



(** ** The guard of [renderIsolated] *)

(** The guard itself does what lines 187-192 say: when [history.location]
    is not the recorded previous location, the callback leaves the page
    as it is. *)
Lemma renderIsolated_guard (browser : Browser) (m : Module) (st : State) :
  same_object (history_location st) (previousLocation st) = false ->
  renderIsolated_then browser m st = Ok tt st.
Proof.
  intros H. unfold renderIsolated_then, bind, get. rewrite H. reflexivity.
Qed.

(** But a pass that goes through to its end records the location it was
    called with, which is [history.location]: after the next navigation
    the two are the same object again, and the guard has nothing to see. *)
Lemma guard_blind_after_pass
    (browser : Browser) (options : Options) (pathname' : string) (st : State) :
  let st' := step browser options (Navigate pathname') st in
  pathname' <> EmptyString ->
  (isIsolated pathname' = true ->
   exists i load,
     findInfo browser options pathname' = Some i /\
     moduleWithDefaultExport (imports options) (filePath i) = inr load) ->
  same_object (history_location st') (previousLocation st') = true /\
  pending st' = match isIsolated pathname', findInfo browser options pathname' with
                | true, Some i =>
                    match moduleWithDefaultExport (imports options) (filePath i) with
                    | inr load => (pending st ++ [load tt])%list
                    | inl _ => pending st
                    end
                | _, _ => pending st
                end.
Proof.
  intros st' Hne Hfound. subst st'. rewrite step_Navigate. cbv zeta.
  set (location := {| key := next_key st; pathname := pathname' |}).
  set (st0 := with_history location (S (next_key st)) st).
  destruct (handleLocationChange_split browser options location st0 Hne)
    as (st1 & Hrun & Hsame & _).
  destruct Hsame as (Hh & _ & _ & _ & _ & _ & Hpe & _).
  unfold run_task. rewrite Hrun.
  change (pathname location) with pathname' in *.
  destruct (isIsolated pathname') eqn:Hiso.
  - destruct (Hfound eq_refl) as (i & load & Hinfo & Hload).
    rewrite (renderLocation_isolated browser options location st1 i load Hiso Hinfo Hload).
    rewrite Hinfo, Hload. simpl. rewrite Hh, Hpe. simpl.
    split; [apply Nat.eqb_refl | reflexivity].
  - destruct (decide (previousIsIsolated st1 = Some false)) as [Hprev | Hprev].
    + rewrite (renderLocation_shell_same browser options location st1 Hiso Hprev). simpl.
      rewrite Hh, Hpe. simpl. split; [apply Nat.eqb_refl | reflexivity].
    + rewrite (renderLocation_shell_enter browser options location st1 Hiso Hprev).
      destruct (replacedDocumentElement st1); simpl; rewrite Hh, Hpe; simpl;
        (split; [apply Nat.eqb_refl | reflexivity]).
Qed.

(** C1 fails on the code.  The page is at [/3]; a first navigation goes
    to the isolated view of [src/exercise/03.js], a second one to the
    isolated view of [src/final/03.js] before the import of the first has
    settled.  When that import settles, [history.location] and the
    recorded previous location are both the location of the second
    navigation, the guard lets the callback through, and the component of
    the first navigation is rendered into the root. *)
Theorem C1_stale_render_applied :
  let st0 := Example.started_at "/3" in
  let st1 :=
    run Example.chrome Example.workshop
        [Navigate "/isolated/exercise/03.js"; Navigate "/isolated/final/03.js"] st0 in
  let st2 := step Example.chrome Example.workshop (ImportSettles 0) st1 in
  List.map (fun p => outcome p) (pending st1)
  = [ Fulfilled {| App := VUndefined; default_export := VFunction (Component 31) |};
      Fulfilled {| App := VUndefined; default_export := VFunction (Component 32) |} ] /\
  pathname (history_location st2) = "/isolated/final/03.js" /\
  same_object (history_location st1) (previousLocation st1) = true /\
  log st2 = RootRender (createElement (Component 31)) :: log st1 /\
  unmount st2 = Some (createElement (Component 31)).
Proof. vm_compute. repeat split; reflexivity. Qed.

(** The same happens when the second navigation goes back to the shell:
    the isolated component takes the root over from the shell. *)
Lemma stale_render_over_shell :
  let st0 := Example.started_at "/3" in
  let st1 :=
    run Example.chrome Example.workshop
        [ShellRenders; Navigate "/isolated/exercise/03.js"; Navigate "/3"; ShellRenders;
         ImportSettles 0] st0 in
  pathname (history_location st1) = "/3" /\
  previousIsIsolated st1 = Some false /\
  log st1
  = [ RootRender (createElement (Component 31)); Unmount ShellUi;
      RootRender ShellUi; Unmount ShellUi; RenderReactApp;
      RootRender ShellUi; RenderReactApp ].
Proof. vm_compute. repeat split; reflexivity. Qed.

(** The guard does hold a stale render back when the second navigation
    ends in the "nothing here" text, the one pass that does not record
    its location. *)
Lemma stale_render_dropped_after_not_found :
  let st0 := Example.started_at "/3" in
  let st1 :=
    run Example.chrome Example.workshop
        [Navigate "/isolated/exercise/03.js"; Navigate "/isolated/nothing.js"] st0 in
  let st2 := step Example.chrome Example.workshop (ImportSettles 0) st1 in
  same_object (history_location st1) (previousLocation st1) = false /\
  log st2 = log st1 /\ unmount st2 = unmount st1.
Proof. vm_compute. repeat split; reflexivity. Qed.

(** ** The order of the scripts of an isolated page *)

Module ReplayOrder.

Import ScriptReplay.

Lemma mem_In (i : nat) (xs : list nat) : mem i xs = true <-> In i xs.
Proof.
  unfold mem. rewrite existsb_exists. split.
  - intros [x [Hx He]]. apply Nat.eqb_eq in He. subst x. exact Hx.
  - intros H. exists i. split; [exact H | apply Nat.eqb_refl].
Qed.

Lemma mem_app (i : nat) (xs ys : list nat) : mem i (xs ++ ys) = mem i xs || mem i ys.
Proof. unfold mem. apply existsb_app. Qed.

Lemma all_loaded_spec (p : Pass) :
  all_loaded p = true ->
  forall j, mem j (loadingScriptsQueue p) = true -> mem j (loaded p) = true.
Proof.
  unfold all_loaded. rewrite forallb_forall. intros H j Hj.
  apply H. apply mem_In. exact Hj.
Qed.

Lemma invariant_start (scripts : list Script) : invariant scripts (start scripts).
Proof.
  constructor; simpl; try reflexivity; try lia; try exact I.
Qed.

Lemma invariant_step (scripts : list Script) (a : Action) (p : Pass) :
  invariant scripts p -> invariant scripts (step a p).
Proof.
  intros [Hs Hpos Hb Hq Hl Ho]. destruct a as [| i]; simpl.
  - destruct (completed p); [constructor; assumption |].
    destruct (scripts_of p !! position p) as [script |] eqn:Hscript.
    + rewrite Hs in Hscript.
      destruct (negb (hasAttribute "src" script) && negb (all_loaded p)) eqn:Hwait;
        [constructor; assumption |].
      constructor; simpl.
      * exact Hs.
      * rewrite Hpos. reflexivity.
      * apply lookup_lt_Some in Hscript. lia.
      * intros j. destruct (hasAttribute "src" script) eqn:Hsrc.
        -- rewrite mem_app, orb_true_iff, Hq. simpl. rewrite orb_false_r, Nat.eqb_eq.
           split.
           ++ intros [[Hj He] | ->]; [split; [lia | exact He] |].
              split; [lia |]. exists script. split; assumption.
           ++ intros [Hj He]. destruct (decide (j = position p)) as [-> | Hne];
                [right; reflexivity | left; split; [lia | exact He]].
        -- rewrite Hq. split.
           ++ intros [Hj He]. split; [lia | exact He].
           ++ intros [Hj He]. split; [| exact He].
              destruct (decide (j = position p)) as [-> | Hne]; [| lia].
              destruct He as (s' & Hs' & Hsrc'). congruence.
      * intros j Hj. right. apply Hl. exact Hj.
      * split; [| exact Ho]. split; [exact Hpos |]. split; [eauto |].
        intros (s' & Hs' & Hsrc') j Hj He.
        assert (script = s') by congruence. subst s'.
        rewrite Hsrc' in Hwait. simpl in Hwait. apply negb_false_iff in Hwait.
        apply Hl. apply (all_loaded_spec p Hwait). apply Hq. split; assumption.
    + rewrite Hs in Hscript. apply lookup_ge_None in Hscript.
      destruct (all_loaded p) eqn:Hall; [| constructor; assumption].
      constructor; simpl; try assumption.
      * intros j Hj. right. apply Hl. exact Hj.
      * split; [| exact Ho]. split; [lia |].
        intros j He. apply Hl. apply (all_loaded_spec p Hall). apply Hq.
        split; [| exact He]. destruct He as (s' & Hs' & _).
        apply lookup_lt_Some in Hs'. lia.
  - destruct (mem i (loadingScriptsQueue p) && negb (mem i (loaded p))) eqn:Hi;
      [| constructor; assumption].
    apply andb_prop in Hi. destruct Hi as [Hi _]. apply Hq in Hi.
    constructor; simpl; try assumption.
    + intros j Hj. apply orb_prop in Hj. destruct Hj as [Hj | Hj].
      * apply Nat.eqb_eq in Hj. subst j. left. reflexivity.
      * right. apply Hl. exact Hj.
    + split; [| exact Ho]. destruct Hi as [Hlt He]. split; [exact He | lia].
Qed.

Lemma invariant_run (scripts : list Script) (acts : list Action) :
  forall p, invariant scripts p -> invariant scripts (run acts p).
Proof.
  induction acts as [| a acts IH]; intros p Hp; simpl; [exact Hp |].
  apply IH. apply invariant_step. exact Hp.
Qed.

Lemma ordered_at (scripts : list Script) (newer older : list Observed) (ev : Observed) :
  ordered scripts (newer ++ ev :: older) -> in_order scripts ev older.
Proof.
  induction newer as [| e newer IH]; simpl; intros [H1 H2]; [exact H1 | exact (IH H2)].
Qed.

End ReplayOrder.

Module ReplayProgress.

Import ScriptReplay ReplayOrder.

Lemma run_cons (a : Action) (acts : list Action) (p : Pass) :
  run (a :: acts) p = run acts (step a p).
Proof. reflexivity. Qed.

Lemma run_app (xs ys : list Action) (p : Pass) :
  run (xs ++ ys) p = run ys (run xs p).
Proof. unfold run. apply foldl_app. Qed.

Lemma mem_mono (i j : nat) (xs : list nat) : mem j xs = true -> mem j (i :: xs) = true.
Proof. intros H. simpl. rewrite H. apply orb_true_r. Qed.

(** With the eager schedule the pass goes through every script and
    completes. *)
Lemma eager_completes_from (rest : list Script) :
  forall (pre : list Script) (p : Pass),
    scripts_of p = (pre ++ rest)%list ->
    position p = length pre ->
    completed p = false ->
    all_loaded p = true ->
    (forall j, mem j (loaded p) = true -> j < position p) ->
    completed (run (eager (length pre) rest) p) = true.
Proof.
  induction rest as [| s rest IH]; intros pre p Hs Hpos Hc Hall Hl.
  - simpl. rewrite Hc, Hs, Hpos, app_nil_r.
    rewrite (proj2 (lookup_ge_None pre (length pre))) by lia.
    rewrite Hall. reflexivity.
  - cbn [eager]. rewrite run_cons.
    assert (Hlookup : scripts_of p !! position p = Some s).
    { rewrite Hs, Hpos. apply list_lookup_middle. reflexivity. }
    assert (Hstep : step Resume p =
              {| scripts_of := scripts_of p; position := S (position p);
                 loadingScriptsQueue :=
                   if hasAttribute "src" s
                   then (loadingScriptsQueue p ++ [position p])%list
                   else loadingScriptsQueue p;
                 loaded := loaded p; completed := false;
                 trace := Inserted (position p) (newScript s) :: trace p |}).
    { simpl. rewrite Hc, Hlookup, Hall. simpl. rewrite andb_false_r. reflexivity. }
    rewrite Hstep. clear Hstep.
    assert (Hlen : S (length pre) = length (pre ++ [s])).
    { rewrite length_app. simpl. lia. }
    destruct (hasAttribute "src" s) eqn:Hsrc.
    + rewrite run_app. cbn [run foldl].
      assert (Hfresh : mem (length pre) (loaded p) = false).
      { destruct (mem (length pre) (loaded p)) eqn:E; [| reflexivity].
        apply Hl in E. lia. }
      cbn [step scripts_of position loadingScriptsQueue loaded completed trace].
      rewrite Hpos, mem_app. simpl mem at 2. rewrite Nat.eqb_refl, Hfresh.
      rewrite orb_true_r. simpl andb. cbv iota.
      rewrite Hlen. apply IH; simpl.
      * rewrite Hs, <- app_assoc. reflexivity.
      * lia.
      * reflexivity.
      * unfold all_loaded. simpl. rewrite forallb_app. simpl.
        rewrite Nat.eqb_refl. simpl. rewrite andb_true_r.
        apply forallb_forall. intros j Hj. apply mem_mono.
        apply (all_loaded_spec p Hall). apply mem_In. exact Hj.
      * intros j Hj. apply orb_prop in Hj. destruct Hj as [Hj | Hj].
        -- apply Nat.eqb_eq in Hj. lia.
        -- apply Hl in Hj. lia.
    + simpl app. rewrite Hlen. apply IH; simpl.
      * rewrite Hs, <- app_assoc. reflexivity.
      * rewrite Hpos. exact Hlen.
      * reflexivity.
      * exact Hall.
      * intros j Hj. apply Hl in Hj. lia.
Qed.

Lemma eager_completes (scripts : list Script) :
  completed (run (eager 0 scripts) (start scripts)) = true.
Proof.
  apply (eager_completes_from scripts [] (start scripts)); try reflexivity.
  intros j Hj. discriminate Hj.
Qed.

End ReplayProgress.

(** C2: in every run of the replay of the scripts of an isolated HTML
    page, the new script elements are put in place in document order;
    when the new element of an inline script is put in place, which is
    when it runs, the load events of all the external scripts before it
    have fired; and when the pass completes, every script has been put in
    place and the load events of all the external scripts have fired. *)
Theorem C2_script_replay_order (scripts : list Script) (acts : list ScriptReplay.Action) :
  let tr := ScriptReplay.trace (ScriptReplay.run acts (ScriptReplay.start scripts)) in
  (forall newer older i s,
     tr = (newer ++ ScriptReplay.Inserted i s :: older)%list ->
     i = ScriptReplay.inserted older /\
     (ScriptReplay.inline scripts i ->
      forall j, j < i -> ScriptReplay.external scripts j ->
                In (ScriptReplay.LoadFired j) older)) /\
  (forall newer older,
     tr = (newer ++ ScriptReplay.Completed :: older)%list ->
     ScriptReplay.inserted older = length scripts /\
     forall j, ScriptReplay.external scripts j -> In (ScriptReplay.LoadFired j) older).
Proof.
  intros tr.
  pose proof (ScriptReplay.inv_ordered scripts _
                (ReplayOrder.invariant_run scripts acts _
                   (ReplayOrder.invariant_start scripts))) as Hord.
  fold tr in Hord. split.
  - intros newer older i s Htr. rewrite Htr in Hord.
    apply ReplayOrder.ordered_at in Hord. destruct Hord as (Hi & _ & Hloads).
    split; assumption.
  - intros newer older Htr. rewrite Htr in Hord.
    apply ReplayOrder.ordered_at in Hord. exact Hord.
Qed.

Lemma C2_script_replay_order_witness :
  let scripts := [Example.externalScript; Example.inlineScript] in
  let acts := ScriptReplay.eager 0 scripts in
  ScriptReplay.trace (ScriptReplay.run acts (ScriptReplay.start scripts))
  = [ ScriptReplay.Completed;
      ScriptReplay.Inserted 1 (ScriptReplay.newScript Example.inlineScript);
      ScriptReplay.LoadFired 0;
      ScriptReplay.Inserted 0 (ScriptReplay.newScript Example.externalScript) ] /\
  In (ScriptReplay.LoadFired 0)
     [ ScriptReplay.LoadFired 0;
       ScriptReplay.Inserted 0 (ScriptReplay.newScript Example.externalScript) ].
Proof.
  intros scripts acts. split; [reflexivity |].
  destruct (C2_script_replay_order scripts acts) as [Hinline _].
  apply (Hinline [ScriptReplay.Completed] _ 1 (ScriptReplay.newScript Example.inlineScript)).
  - reflexivity.
  - exists Example.inlineScript. split; reflexivity.
  - lia.
  - exists Example.externalScript. split; reflexivity.
Defined.

(** An inline script does not run while an external script before it is
    still loading: the pass stays where it is however often it is
    resumed. *)
Lemma inline_waits_for_load (n : nat) :
  let scripts := [Example.externalScript; Example.inlineScript] in
  ScriptReplay.trace
    (ScriptReplay.run (ScriptReplay.Resume :: repeat ScriptReplay.Resume n)
                      (ScriptReplay.start scripts))
  = [ScriptReplay.Inserted 0 (ScriptReplay.newScript Example.externalScript)].
Proof.
  intros scripts. rewrite ReplayProgress.run_cons.
  induction n as [| n IH]; [reflexivity |].
  simpl repeat. rewrite ReplayProgress.run_cons. exact IH.
Qed.

(** * Further properties of the code *)

(** ** The resolver and the registration *)

(** For a path that does not end in [html], the loader of the resolver is
    always fulfilled, and with a default export that is neither null nor
    undefined, however the import settles: what [React.lazy] asks for
    (lines 277-280). *)
Theorem resolver_default_export_present
    (imports : Imports) (filePath : string) (importFn : DynamicImportFn) :
  imports !! filePath = Some importFn ->
  JsString.endsWith filePath "html" = false ->
  exists load m,
    moduleWithDefaultExport imports filePath = inr load /\
    outcome (load tt) = Fulfilled m /\
    is_present (default_export m) = true.
Proof.
  intros Hin Hext. exists (importJS importFn filePath).
  rewrite (resolver_js imports filePath importFn Hin Hext).
  unfold importJS. destruct (outcome (importFn tt)) as [module | error].
  - eexists. split; [reflexivity |]. split; [reflexivity |]. simpl.
    destruct (App module); simpl; try reflexivity;
      destruct (default_export module); reflexivity.
  - eexists. split; [reflexivity |]. split; reflexivity.
Qed.

Lemma resolver_default_export_present_witness :
  exists load m,
    moduleWithDefaultExport
      {[ "src/empty.js" := fulfilled_with {| App := VNull; default_export := VUndefined |} ]}
      "src/empty.js" = inr load /\
    outcome (load tt) = Fulfilled m /\
    is_present (default_export m) = true.
Proof.
  apply (resolver_default_export_present
           {[ "src/empty.js" := fulfilled_with {| App := VNull; default_export := VUndefined |} ]}
           "src/empty.js"
           (fulfilled_with {| App := VNull; default_export := VUndefined |})).
  - apply lookup_singleton_eq.
  - reflexivity.
Defined.

(** The handlers the resolver adds run once each: the links of the
    instructions are reworked exactly for the paths in [.md] or [.mdx]
    whose import is fulfilled, and the console gets the error exactly
    when the import is rejected. *)
Theorem resolver_side_effects
    (imports : Imports) (filePath : string) (importFn : DynamicImportFn) :
  imports !! filePath = Some importFn ->
  JsString.endsWith filePath "html" = false ->
  exists load,
    moduleWithDefaultExport imports filePath = inr load /\
    exists added,
      on_settle (load tt) = (on_settle (importFn tt) ++ added)%list /\
      (In TargetBlankifyInstructionLinks added <->
       (exists m, outcome (importFn tt) = Fulfilled m) /\
       (JsString.endsWith filePath ".md" = true \/ JsString.endsWith filePath ".mdx" = true)) /\
      (forall p e, In (ConsoleError p e) added <->
                   p = filePath /\ outcome (importFn tt) = Rejected e) /\
      length added <= 1.
Proof.
  intros Hin Hext. exists (importJS importFn filePath).
  split; [exact (resolver_js imports filePath importFn Hin Hext) |].
  unfold importJS, matches_mdx.
  destruct (outcome (importFn tt)) as [module | error] eqn:Ho; cbn [on_settle].
  - eexists. split; [reflexivity |].
    destruct (JsString.endsWith filePath ".md"), (JsString.endsWith filePath ".mdx");
      simpl; (split; [| split]); try lia;
      try (intros p e); (split; [intros H | intros [H1 H2]]);
      try (destruct H as [H | []]); try discriminate; try (destruct H2; discriminate);
      try (split; eauto); try (left; reflexivity); try contradiction.
  - eexists. split; [reflexivity |]. simpl. split; [| split]; try lia.
    + split; [intros [H | []]; discriminate H | intros [[m Hm] _]; discriminate Hm].
    + intros p e. split.
      * intros [H | []]. inversion H; subst. split; reflexivity.
      * intros [-> H]. inversion H; subst. left. reflexivity.
Qed.

Lemma resolver_side_effects_witness :
  exists load,
    moduleWithDefaultExport Example.workshop_imports "src/exercise/03.md" = inr load /\
    on_settle (load tt) = [TargetBlankifyInstructionLinks].
Proof.
  destruct (resolver_side_effects Example.workshop_imports "src/exercise/03.md"
              (fulfilled_with {| App := VUndefined; default_export := VFunction (Component 30) |}))
    as (load & Hload & _).
  - vm_compute. reflexivity.
  - reflexivity.
  - exists load. split; [exact Hload |].
    assert (Hl : inr load
                 = moduleWithDefaultExport Example.workshop_imports "src/exercise/03.md")
      by (symmetry; exact Hload).
    vm_compute in Hl. inversion Hl. reflexivity.
Defined.

(** The registration stops exactly when an entry of the manifest with a
    component extension has no import, at the first such entry, with the
    error that names its file path; no entry after it is looked at. *)
Theorem registration_error
    (imports : Imports) (filesInfo : list FileInfo) (acc : gmap string LazyComponent)
    (e : JsError) :
  registerLazyComponents imports filesInfo acc = inl e ->
  exists before info after,
    filesInfo = (before ++ info :: after)%list /\
    includes componentExtensions (ext info) = true /\
    imports !! filePath info = None /\
    message e = "'" ++ filePath info ++ "' does not exist in imports." /\
    forall i, In i before -> includes componentExtensions (ext i) = true ->
              is_Some (imports !! filePath i).
Proof.
  revert acc. induction filesInfo as [| info rest IH]; intros acc; cbn [registerLazyComponents].
  - discriminate.
  - destruct (includes componentExtensions (ext info)) eqn:Hext.
    + unfold moduleWithDefaultExport at 1.
      destruct (imports !! filePath info) as [importFn |] eqn:Hin.
      * intros H.
        assert (H' : exists acc', registerLazyComponents imports rest acc' = inl e).
        { destruct (JsString.endsWith (filePath info) "html"); eauto. }
        destruct H' as [acc' H'].
        destruct (IH acc' H') as (before & i & after & -> & Hi & Hnone & Hmsg & Hbefore).
        exists (info :: before), i, after. repeat split; try assumption.
        intros j [<- | Hj] Hc; [eauto | exact (Hbefore j Hj Hc)].
      * intros H. inversion H; subst e.
        exists [], info, rest. repeat split; try assumption.
        intros i [].
    + intros H. destruct (IH acc H) as (before & i & after & -> & Hi & Hnone & Hmsg & Hbefore).
      exists (info :: before), i, after. repeat split; try assumption.
      intros j [<- | Hj] Hc; [congruence | exact (Hbefore j Hj Hc)].
Qed.

Lemma registration_error_witness :
  exists before info after,
    [Example.final3; Example.page; Example.exercise3]
    = (before ++ info :: after)%list /\
    includes componentExtensions (ext info) = true /\
    ({[ "src/final/03.js" := rejected_with {| message := "x" |} ]} : Imports)
      !! filePath info = None /\
    message {| message := "'src/exercise/03.js' does not exist in imports." |}
    = "'" ++ filePath info ++ "' does not exist in imports." /\
    forall i, In i before -> includes componentExtensions (ext i) = true ->
              is_Some (({[ "src/final/03.js" := rejected_with {| message := "x" |} ]} : Imports)
                         !! filePath i).
Proof.
  apply (registration_error
           {[ "src/final/03.js" := rejected_with {| message := "x" |} ]}
           [Example.final3; Example.page; Example.exercise3] ∅
           {| message := "'src/exercise/03.js' does not exist in imports." |}).
  vm_compute. reflexivity.
Defined.

(** ** The class that names a path *)

Lemma all_chars_app (p : ascii -> bool) (s t : string) :
  all_chars p (s ++ t) = all_chars p s && all_chars p t.
Proof.
  induction s as [| a s IH]; [reflexivity |].
  change (p a && all_chars p (s ++ t) = p a && all_chars p s && all_chars p t).
  rewrite IH. apply andb_assoc.
Qed.

Lemma all_chars_In (p : ascii -> bool) (s : string) :
  all_chars p s = true -> forall a, In a (list_ascii_of_string s) -> p a = true.
Proof.
  induction s as [| b s IH]; simpl; [intros _ a [] |].
  intros H a [<- | Ha]; apply andb_prop in H; destruct H as [Hb Hs]; [exact Hb | exact (IH Hs a Ha)].
Qed.

Lemma encode_char_token (a : ascii) :
  all_chars token_char (JsString.encodeURIComponent (String a EmptyString)) = true.
Proof.
  destruct a as [b0 b1 b2 b3 b4 b5 b6 b7].
  destruct b0, b1, b2, b3, b4, b5, b6, b7; vm_compute; reflexivity.
Qed.

Lemma encodeURIComponent_token (s : string) :
  all_chars token_char (JsString.encodeURIComponent s) = true.
Proof.
  induction s as [| a s IH]; [reflexivity |].
  rewrite encodeURIComponent_cons, all_chars_app, IH, encode_char_token. reflexivity.
Qed.

(** The escaped name of a path can go into a class list, as the comment
    of line 106 wants: it holds no [/] and no white space, and it is empty
    only for the empty path. *)
Theorem escapeForClassList_is_token (name : string) :
  (forall a, In a (list_ascii_of_string (escapeForClassList name)) ->
             a <> "/"%char /\ a <> " "%char /\ is_whitespace a = false) /\
  (escapeForClassList name = EmptyString <-> name = EmptyString).
Proof.
  split.
  - intros a Ha.
    pose proof (all_chars_In token_char _ (encodeURIComponent_token _) a Ha) as H.
    unfold token_char in H. apply andb_prop in H. destruct H as [Hw Hs].
    apply negb_true_iff in Hw, Hs. apply Ascii.eqb_neq in Hs.
    split; [exact Hs |]. split; [| exact Hw].
    intros ->. discriminate Hw.
  - split.
    + intros H. destruct name as [| a s]; [reflexivity |].
      assert (Hne : String a s <> EmptyString) by discriminate.
      pose proof (escapeForClassList_nonempty _ Hne) as Hn.
      rewrite H in Hn. discriminate Hn.
    + intros ->. reflexivity.
Qed.

Lemma percentDecode_encode (s : string) :
  percentDecode (JsString.encodeURIComponent s) = s.
Proof.
  induction s as [| a s IH]; [reflexivity |].
  destruct a as [b0 b1 b2 b3 b4 b5 b6 b7].
  destruct b0, b1, b2, b3, b4, b5, b6, b7; simpl; rewrite IH; reflexivity.
Qed.

(** Two paths get the same class exactly when they are the same once
    every [/] is an [_]: the percent-encoding itself loses nothing. *)
Theorem escapeForClassList_collision (a b : string) :
  escapeForClassList a = escapeForClassList b <->
  JsString.replaceAll "/" "_" a = JsString.replaceAll "/" "_" b.
Proof.
  unfold escapeForClassList. split.
  - intros H. apply (f_equal percentDecode) in H.
    rewrite !percentDecode_encode in H. exact H.
  - intros ->. reflexivity.
Qed.

Lemma marked_other (prevClassName newClassName c : string) (X : gset string) :
  c <> prevClassName -> c <> newClassName ->
  (c ∈ marked prevClassName newClassName X <-> c ∈ X).
Proof.
  intros Hp Hn. unfold marked.
  destruct (bool_decide (prevClassName ∈ X));
    destruct (bool_decide (newClassName ∈ _)); set_unfold; tauto.
Qed.

(** A pass over a path that is not empty, with the original document in
    place, leaves every class of the body alone but the class of the
    recorded previous path and the class of the new path. *)
Theorem body_class_others_untouched
    (browser : Browser) (options : Options) (location : Location) (st : State) (c : string) :
  pathname location <> EmptyString ->
  replacedDocumentElement st = None ->
  c <> escapeForClassList (pathname (previousLocation st)) ->
  c <> escapeForClassList (pathname location) ->
  (c ∈ classList (document (final_state (handleLocationChange browser options location st)))
   <-> c ∈ classList (document st)).
Proof.
  intros Hne Hr Hp Hn.
  destruct (handleLocationChange_split browser options location st Hne)
    as (st1 & Hrun & Hsame & Hcl).
  assert (Hr1 : replacedDocumentElement st1 = None).
  { destruct Hsame as (_ & _ & _ & _ & _ & _ & _ & _ & H & _). exact (H Hr). }
  rewrite Hrun, (renderLocation_classList browser options location st1 Hr1), Hcl.
  apply marked_other; assumption.
Qed.

Lemma body_class_others_untouched_witness :
  let st := initial_state "/3" (set_classList {[ "_3"; "dark" ]} Example.index_html) in
  let location := {| key := 1; pathname := "/4" |} in
  "dark" ∈ classList (document (final_state
             (handleLocationChange Example.chrome Example.workshop location st)))
  <-> "dark" ∈ classList (document st).
Proof.
  apply (body_class_others_untouched Example.chrome Example.workshop
           {| key := 1; pathname := "/4" |}
           (initial_state "/3" (set_classList {[ "_3"; "dark" ]} Example.index_html))
           "dark").
  - discriminate.
  - reflexivity.
  - vm_compute. discriminate.
  - vm_compute. discriminate.
Defined.

(** ** What every event keeps *)

Section Preserved.

Variable P : State -> Prop.
Variable recordable : Location -> Prop.

Hypothesis P_document : forall f st, P st -> P (update_document f st).
Hypothesis P_documents : forall o r st, P st -> P (with_documents o r st).
Hypothesis P_timers : forall t st, P st -> P (with_timers t st).
Hypothesis P_pending : forall p st, P st -> P (with_pending p st).
Hypothesis P_history : forall l k st, P st -> P (with_history l k st).
Hypothesis P_log :
  forall e st, is_mount_effect e = false -> P st -> P (with_log (e :: log st) st).
Hypothesis P_previous :
  forall location st,
    recordable location ->
    P st -> P (with_previous location (Some (isIsolated (pathname location))) st).
Hypothesis P_render : forall ui, preserves P (render ui).

Lemma preserves_ret {A} (a : A) : preserves P (ret a).
Proof. intros st H. exact H. Qed.

Lemma preserves_throw {A} (e : JsError) : preserves P (@throw A e).
Proof. intros st H. exact H. Qed.

Lemma preserves_get : preserves P get.
Proof. intros st H. exact H. Qed.

Lemma preserves_modify (f : State -> State) :
  (forall st, P st -> P (f st)) -> preserves P (modify f).
Proof. intros Hf st H. exact (Hf st H). Qed.

Lemma preserves_bind {A B} (c : M A) (k : A -> M B) :
  preserves P c -> (forall a, preserves P (k a)) -> preserves P (bind c k).
Proof.
  intros Hc Hk st H. unfold bind. specialize (Hc st H).
  destruct (c st) as [a st' | e st']; simpl in *; [exact (Hk a st' Hc) | exact Hc].
Qed.

Lemma preserves_when (b : bool) (c : M unit) : preserves P c -> preserves P (when b c).
Proof. intros Hc. destruct b; [exact Hc | apply preserves_ret]. Qed.

Lemma preserves_emit (e : Effect) : is_mount_effect e = false -> preserves P (emit e).
Proof. intros He. apply preserves_modify. intros st. apply P_log. exact He. Qed.

Lemma preserves_contains (c : string) : preserves P (classList_contains c).
Proof. intros st H. exact H. Qed.

Lemma preserves_setTimeout (t : Timer) : preserves P (setTimeout t).
Proof. apply preserves_modify. intros st. apply P_timers. Qed.

Lemma preserves_add (c : string) : preserves P (classList_add c).
Proof.
  unfold classList_add. destruct (String.eqb c ""); [apply preserves_throw |].
  destruct (has_whitespace c); [apply preserves_throw |].
  apply preserves_modify. intros st. apply P_document.
Qed.

Lemma preserves_updateBodyClass (location : Location) :
  preserves P (updateBodyClass location).
Proof.
  unfold updateBodyClass.
  apply preserves_bind; [apply preserves_get | intros st0].
  apply preserves_bind; [apply preserves_contains | intros hasPrev].
  apply preserves_bind.
  { apply preserves_when. apply preserves_modify. intros st. apply P_document. }
  intros _. apply preserves_bind; [apply preserves_contains | intros hasNew].
  apply preserves_when. apply preserves_add.
Qed.

Lemma preserves_renderReact : preserves P renderReact.
Proof.
  unfold renderReact.
  apply preserves_bind; [apply preserves_get | intros st0].
  apply preserves_bind; [| intros _; apply preserves_emit; reflexivity].
  destruct (replacedDocumentElement st0); [| apply preserves_ret].
  apply preserves_bind; [| intros _; apply preserves_emit; reflexivity].
  apply preserves_modify. intros st. apply P_documents.
Qed.

Lemma preserves_renderLocation
    (browser : Browser) (options : Options) (location : Location) :
  recordable location ->
  preserves P (renderLocation browser options location).
Proof.
  intros Hrec. unfold renderLocation.
  assert (Hnf : preserves P body_not_found).
  { unfold body_not_found. apply preserves_bind.
    - apply preserves_modify. intros st. apply P_document.
    - intros _. apply preserves_emit. reflexivity. }
  assert (Hrest : forall (c : M unit),
            preserves P c ->
            preserves P
              (bind (setTimeout (TitleTimer (findInfo browser options (pathname location))))
                 (fun _ => bind c (fun _ =>
                    modify (with_previous location
                              (Some (isIsolated (pathname location)))))))).
  { intros c Hc. apply preserves_bind; [apply preserves_setTimeout | intros _].
    apply preserves_bind; [exact Hc | intros _].
    apply preserves_modify. intros st. apply P_previous. exact Hrec. }
  assert (Hshell : preserves P
            (bind get (fun st =>
               when (flag_differs (previousIsIsolated st) (isIsolated (pathname location)))
                    renderReact))).
  { apply preserves_bind; [apply preserves_get | intros st0].
    apply preserves_when. apply preserves_renderReact. }
  destruct (isIsolated (pathname location)) eqn:Hiso;
    destruct (findInfo browser options (pathname location)) as [i |] eqn:Hinfo.
  - apply Hrest.
    destruct (moduleWithDefaultExport (imports options) (filePath i));
      [apply preserves_throw |].
    apply preserves_modify. intros st. apply P_pending.
  - exact Hnf.
  - apply Hrest. exact Hshell.
  - apply Hrest. exact Hshell.
Qed.

Lemma preserves_handleLocationChange
    (browser : Browser) (options : Options) (location : Location) :
  recordable location ->
  preserves P (handleLocationChange browser options location).
Proof.
  intros Hrec. unfold handleLocationChange.
  apply preserves_bind; [apply preserves_updateBodyClass | intros _].
  apply preserves_renderLocation. exact Hrec.
Qed.

Lemma preserves_renderIsolated_then (browser : Browser) (m : Module) :
  preserves P (renderIsolated_then browser m).
Proof.
  unfold renderIsolated_then.
  apply preserves_bind; [apply preserves_get | intros st0].
  destruct (negb (same_object (history_location st0) (previousLocation st0)));
    [apply preserves_ret |].
  destruct (default_export m) as [| | markup | f | n]; try apply preserves_ret.
  - apply preserves_bind; [| intros _; apply preserves_emit; reflexivity].
    apply preserves_modify. intros st. apply P_documents.
  - destruct f; [apply preserves_ret | apply P_render | apply P_render].
Qed.

Lemma preserves_side_effects (es : list SideEffect) : preserves P (side_effects es).
Proof.
  induction es as [| e es IH]; [apply preserves_ret |].
  cbn [side_effects]. apply preserves_bind; [| intros _; exact IH].
  destruct e; [apply preserves_emit; reflexivity | apply preserves_setTimeout].
Qed.

Lemma preserves_run_task (c : M unit) : preserves P c -> forall st, P st -> P (run_task c st).
Proof.
  intros Hc st H. unfold run_task. specialize (Hc st H).
  destruct (c st) as [[] st' | e st']; simpl in Hc; [exact Hc |].
  apply P_log; [reflexivity | exact Hc].
Qed.

Lemma preserves_step (browser : Browser) (options : Options) (ev : Event) (st : State) :
  (forall location, recordable location) ->
  P st -> P (step browser options ev st).
Proof.
  intros Hrec H. destruct ev as [pathname' | i | i |]; cbn [step].
  - apply preserves_run_task; [| exact H]. unfold transition.
    apply preserves_bind; [apply preserves_get | intros st0].
    apply preserves_bind.
    + apply preserves_modify. intros s. apply P_history.
    + intros _. apply preserves_handleLocationChange. apply Hrec.
  - destruct (pending st !! i) as [p |]; [| exact H].
    apply preserves_run_task; [| apply P_pending; exact H].
    unfold settle. apply preserves_bind; [apply preserves_side_effects | intros _].
    destruct (outcome p); [apply preserves_renderIsolated_then |].
    apply preserves_emit. reflexivity.
  - destruct (timers st !! i) as [[info |] |]; [| apply P_timers; exact H | exact H].
    apply preserves_run_task; [| apply P_timers; exact H].
    unfold title_callback. apply preserves_bind; [apply preserves_get | intros st0].
    apply preserves_when. apply preserves_modify. intros s. apply P_document.
  - apply preserves_run_task; [apply P_render | exact H].
Qed.

Lemma preserves_run (browser : Browser) (options : Options) (evs : list Event) :
  (forall location, recordable location) ->
  forall st, P st -> P (run browser options evs st).
Proof.
  intros Hrec. induction evs as [| ev evs IH]; intros st H; [exact H |].
  cbn [run foldl]. apply IH. apply preserves_step; assumption.
Qed.

Lemma preserves_start
    (browser : Browser) (options : Options) (pathname' : string) (doc : Doc)
    (lazyComponents : gmap string LazyComponent) (st : State) :
  (forall location, recordable location) ->
  P (initial_state pathname' doc) ->
  makeKCDWorkshopApp browser options pathname' doc = inr (lazyComponents, st) ->
  P st.
Proof.
  intros Hrec H0 Hmake. unfold makeKCDWorkshopApp in Hmake.
  destruct (registerLazyComponents (imports options) (filesInfo options) ∅);
    [discriminate Hmake |].
  inversion Hmake; subst.
  apply preserves_run_task; [| exact H0].
  apply preserves_handleLocationChange. apply Hrec.
Qed.

End Preserved.

Lemma fields_update_document (f : Doc -> Doc) (st : State) :
  log (update_document f st) = log st /\
  unmount (update_document f st) = unmount st /\
  previousLocation (update_document f st) = previousLocation st /\
  previousIsIsolated (update_document f st) = previousIsIsolated st.
Proof. unfold update_document. destruct (replacedDocumentElement st); repeat split. Qed.

Lemma one_root_render (ui : Ui) : preserves one_root (render ui).
Proof.
  intros st H. unfold one_root in *. unfold render, bind, get, emit, modify, ret.
  destruct (root (document st)); simpl.
  - destruct (unmount st) as [mounted |] eqn:Hm; simpl; rewrite H; simpl.
    + rewrite bool_decide_eq_true_2 by reflexivity. reflexivity.
    + reflexivity.
  - rewrite H. reflexivity.
Qed.

Lemma one_root_log (e : Effect) (st : State) :
  is_mount_effect e = false -> one_root st -> one_root (with_log (e :: log st) st).
Proof.
  intros He H. unfold one_root in *. simpl. rewrite H.
  destruct e; try discriminate He; reflexivity.
Qed.

Lemma one_root_document (f : Doc -> Doc) (st : State) :
  one_root st -> one_root (update_document f st).
Proof.
  intros H. unfold one_root in *.
  destruct (fields_update_document f st) as (-> & -> & _). exact H.
Qed.

Ltac one_root_frame :=
  first [ exact one_root_log | exact one_root_render | exact one_root_document
        | (intros; exact I) | (intros; assumption) | reflexivity ].

Lemma one_root_step (browser : Browser) (options : Options) (evs : list Event) (st : State) :
  one_root st -> one_root (run browser options evs st).
Proof.
  apply (preserves_run one_root (fun _ => True)); one_root_frame.
Qed.

(** At most one root is mounted at any time: from the start of the app
    on, whatever happens, [render] mounts a root only when none is
    mounted, unmounts only the root that is mounted, and the module-level
    [unmount] is the one of the root that is mounted. *)
Theorem one_root_at_a_time
    (browser : Browser) (options : Options) (pathname' : string) (doc : Doc)
    (lazyComponents : gmap string LazyComponent) (st : State) (evs : list Event) :
  makeKCDWorkshopApp browser options pathname' doc = inr (lazyComponents, st) ->
  mounted_after (log (run browser options evs st))
  = Some (unmount (run browser options evs st)).
Proof.
  intros Hmake. apply one_root_step.
  apply (preserves_start one_root (fun _ => True)) with browser options pathname' doc
          lazyComponents; first [exact Hmake | one_root_frame].
Qed.

Lemma one_root_at_a_time_witness :
  let evs := [ShellRenders; Navigate "/isolated/exercise/03.js"; ImportSettles 0;
              Navigate "/3"; ShellRenders] in
  let st := run Example.chrome Example.workshop evs (Example.started_at "/3") in
  mounted_after (log st) = Some (unmount st) /\
  unmount st = Some ShellUi /\
  log st = [ RootRender ShellUi; Unmount (createElement (Component 31)); RenderReactApp;
             RootRender (createElement (Component 31)); Unmount ShellUi;
             RootRender ShellUi; RenderReactApp ].
Proof.
  intros evs st. split; [| vm_compute; split; reflexivity].
  apply (one_root_at_a_time Example.chrome Example.workshop "/3" Example.index_html
           Example.registry (Example.started_at "/3") evs).
  vm_compute. reflexivity.
Defined.

Lemma flag_agrees_document (f : Doc -> Doc) (st : State) :
  flag_agrees st -> flag_agrees (update_document f st).
Proof.
  intros H. unfold flag_agrees in *.
  destruct (fields_update_document f st) as (_ & _ & -> & ->). exact H.
Qed.

Lemma flag_agrees_render (ui : Ui) : preserves flag_agrees (render ui).
Proof.
  intros s H. unfold flag_agrees in *. unfold render, bind, get, emit, modify, ret.
  destruct (root (document s)); [destruct (unmount s) |]; exact H.
Qed.

Lemma flag_agrees_previous (location : Location) (st : State) :
  True -> flag_agrees st ->
  flag_agrees (with_previous location (Some (isIsolated (pathname location))) st).
Proof. intros _ _. reflexivity. Qed.

Ltac flag_agrees_frame :=
  first [ exact flag_agrees_document | exact flag_agrees_render | exact flag_agrees_previous
        | (intros; exact I) | (intros; assumption) | exact I ].

(** The recorded flag always goes with the recorded location: from the
    start of the app on, whatever happens, [previousIsIsolated] is unset
    or tells whether the path of [previousLocation] is isolated. *)
Theorem previous_flag_agrees
    (browser : Browser) (options : Options) (pathname' : string) (doc : Doc)
    (lazyComponents : gmap string LazyComponent) (st : State) (evs : list Event) :
  makeKCDWorkshopApp browser options pathname' doc = inr (lazyComponents, st) ->
  match previousIsIsolated (run browser options evs st) with
  | None => True
  | Some b => b = isIsolated (pathname (previousLocation (run browser options evs st)))
  end.
Proof.
  intros Hmake. change (flag_agrees (run browser options evs st)).
  apply (preserves_run flag_agrees (fun _ => True)); try flag_agrees_frame.
  apply (preserves_start flag_agrees (fun _ => True)) with browser options pathname' doc
          lazyComponents; first [exact Hmake | flag_agrees_frame].
Qed.

Lemma previous_flag_agrees_witness :
  let evs := [Navigate "/isolated/exercise/03.js"; Navigate "/isolated/none.js"; Navigate "/4"] in
  match previousIsIsolated (run Example.chrome Example.workshop evs (Example.started_at "/3")) with
  | None => True
  | Some b =>
      b = isIsolated (pathname (previousLocation
            (run Example.chrome Example.workshop evs (Example.started_at "/3"))))
  end.
Proof.
  apply (previous_flag_agrees Example.chrome Example.workshop "/3" Example.index_html
           Example.registry (Example.started_at "/3")).
  vm_compute. reflexivity.
Defined.

(** A pass records the location and the flag together or not at all:
    after it, whether it returned or threw, either both are the ones of
    the location it was called with, or both are as they were. *)
Theorem pass_records_pair
    (browser : Browser) (options : Options) (location : Location) (st : State) :
  let st' := final_state (handleLocationChange browser options location st) in
  (previousLocation st' = location /\
   previousIsIsolated st' = Some (isIsolated (pathname location))) \/
  (previousLocation st' = previousLocation st /\
   previousIsIsolated st' = previousIsIsolated st).
Proof.
  set (P := fun s : State =>
              (previousLocation s = location /\
               previousIsIsolated s = Some (isIsolated (pathname location))) \/
              (previousLocation s = previousLocation st /\
               previousIsIsolated s = previousIsIsolated st)).
  assert (Hdoc : forall f s, P s -> P (update_document f s)).
  { intros f s H. unfold P in *.
    destruct (fields_update_document f s) as (_ & _ & -> & ->). exact H. }
  assert (Hrender : forall ui, preserves P (render ui)).
  { intros ui s H. unfold P in *. unfold render, bind, get, emit, modify, ret.
    destruct (root (document s)); [destruct (unmount s) |]; exact H. }
  assert (Hprev : forall l s, l = location -> P s ->
            P (with_previous l (Some (isIsolated (pathname l))) s)).
  { intros l s -> _. left. split; reflexivity. }
  assert (H0 : P st) by (right; split; reflexivity).
  apply (preserves_handleLocationChange P (fun l => l = location));
    first [ exact Hdoc | exact Hrender | exact Hprev | exact H0 | reflexivity
          | (intros; assumption) ].
Qed.

(** ** Passes that fail, and the first pass *)

(** An isolated path whose file is in the manifest but has no import:
    the pass throws the error of the resolver after it has set the timer
    of the title; no renderer is called and nothing is recorded. *)
Theorem isolated_missing_import_throws
    (browser : Browser) (options : Options) (location : Location) (st : State) (i : FileInfo) :
  isIsolated (pathname location) = true ->
  findInfo browser options (pathname location) = Some i ->
  imports options !! filePath i = None ->
  exists st',
    handleLocationChange browser options location st
    = Throw {| message := "'" ++ filePath i ++ "' does not exist in imports." |} st' /\
    timers st' = (timers st ++ [TitleTimer (Some i)])%list /\
    pending st' = pending st /\
    log st' = log st /\
    previousLocation st' = previousLocation st /\
    previousIsIsolated st' = previousIsIsolated st.
Proof.
  intros Hiso Hinfo Hnone.
  destruct (handleLocationChange_split browser options location st
              (isIsolated_nonempty _ Hiso)) as (st1 & Hrun & Hsame & _).
  destruct Hsame as (_ & _ & Hpl & Hpi & _ & Hti & Hpe & Hlog & _).
  assert (Hload : moduleWithDefaultExport (imports options) (filePath i)
                  = inl {| message := "'" ++ filePath i ++ "' does not exist in imports." |}).
  { unfold moduleWithDefaultExport. rewrite Hnone. reflexivity. }
  rewrite Hrun, (renderLocation_missing_import browser options location st1 i _ Hiso Hinfo Hload).
  eexists. split; [reflexivity |]. simpl. rewrite Hti. repeat split; assumption.
Qed.

Lemma isolated_missing_import_throws_witness :
  let options := {| imports := ∅; filesInfo := [Example.exercise3]; projectTitle := "React" |} in
  let location := {| key := 1; pathname := "/isolated/exercise/03.js" |} in
  let st := initial_state "/3" Example.index_html in
  exists st',
    handleLocationChange Example.chrome options location st
    = Throw {| message := "'" ++ filePath Example.exercise3 ++ "' does not exist in imports." |}
            st' /\
    timers st' = (timers st ++ [TitleTimer (Some Example.exercise3)])%list /\
    pending st' = pending st /\
    log st' = log st /\
    previousLocation st' = previousLocation st /\
    previousIsIsolated st' = previousIsIsolated st.
Proof.
  apply (isolated_missing_import_throws Example.chrome
           {| imports := ∅; filesInfo := [Example.exercise3]; projectTitle := "React" |}
           {| key := 1; pathname := "/isolated/exercise/03.js" |}
           (initial_state "/3" Example.index_html) Example.exercise3).
  - reflexivity.
  - reflexivity.
  - reflexivity.
Defined.

(** The start of the app on a path that is not isolated (and not empty),
    once the registration is through: the first pass calls the shell
    renderer once, sets the timer of the title, records the location of
    the history as the previous one with the flag [false], and starts no
    import. *)
Theorem startup_renders_shell
    (browser : Browser) (options : Options) (pathname' : string) (doc : Doc)
    (lazyComponents : gmap string LazyComponent) :
  pathname' <> EmptyString ->
  isIsolated pathname' = false ->
  registerLazyComponents (imports options) (filesInfo options) ∅ = inr lazyComponents ->
  exists st,
    makeKCDWorkshopApp browser options pathname' doc = inr (lazyComponents, st) /\
    log st = [RenderReactApp] /\
    timers st = [TitleTimer (findInfo browser options pathname')] /\
    pending st = [] /\
    unmount st = None /\
    previousIsIsolated st = Some false /\
    previousLocation st = history_location st /\
    pathname (history_location st) = pathname'.
Proof.
  intros Hne Hiso Hreg. unfold makeKCDWorkshopApp. rewrite Hreg.
  set (st0 := initial_state pathname' doc).
  destruct (handleLocationChange_split browser options (history_location st0) st0 Hne)
    as (st1 & Hrun & Hsame & _).
  destruct Hsame as (Hh & _ & _ & Hpi & Hun & Hti & Hpe & Hlog & Hr & _).
  assert (Hprev : previousIsIsolated st1 <> Some false) by (rewrite Hpi; discriminate).
  eexists. split; [reflexivity |].
  unfold run_task. rewrite Hrun.
  rewrite (renderLocation_shell_enter browser options (history_location st0) st1 Hiso Hprev).
  rewrite (Hr eq_refl). simpl. rewrite Hlog, Hti, Hpe, Hun, Hh. repeat split.
Qed.

Lemma startup_renders_shell_witness :
  exists st,
    makeKCDWorkshopApp Example.chrome Example.workshop "/3" Example.index_html
    = inr (Example.registry, st) /\
    log st = [RenderReactApp] /\
    timers st = [TitleTimer (findInfo Example.chrome Example.workshop "/3")] /\
    pending st = [] /\
    unmount st = None /\
    previousIsIsolated st = Some false /\
    previousLocation st = history_location st /\
    pathname (history_location st) = "/3".
Proof.
  apply (startup_renders_shell Example.chrome Example.workshop "/3" Example.index_html
           Example.registry).
  - discriminate.
  - reflexivity.
  - vm_compute. reflexivity.
Defined.

Lemma guard_blind_after_pass_witness :
  let st := Example.started_at "/3" in
  let st' := step Example.chrome Example.workshop (Navigate "/isolated/exercise/03.js") st in
  same_object (history_location st') (previousLocation st') = true /\
  length (pending st') = 1.
Proof.
  intros st st'.
  destruct (guard_blind_after_pass Example.chrome Example.workshop
              "/isolated/exercise/03.js" st) as [Hsame Hpending].
  - discriminate.
  - intros _. exists Example.exercise3. eexists. split; vm_compute; reflexivity.
  - split; [exact Hsame |]. fold st' in Hpending. rewrite Hpending. reflexivity.
Defined.

(** ** The guard, when it fires *)

Lemma side_effects_frame (browser : Browser) (es : list SideEffect) :
  forall st, exists st',
    side_effects es st = Ok tt st' /\
    history_location st' = history_location st /\
    previousLocation st' = previousLocation st /\
    originalDocumentElement st' = originalDocumentElement st /\
    replacedDocumentElement st' = replacedDocumentElement st /\
    unmount st' = unmount st /\
    pending st' = pending st /\
    forall e, In e (log st') -> In e (log st) \/ exists p err, e = Console p err.
Proof.
  induction es as [| e es IH]; intros st.
  - exists st. repeat split; auto.
  - cbn [side_effects]. unfold bind.
    destruct e as [p err |]; simpl.
    + destruct (IH (with_log (Console p err :: log st) st))
        as (st' & Hrun & H1 & H2 & H3 & H4 & H5 & H6 & Hlog).
      exists st'. repeat split; try assumption.
      intros e He. destruct (Hlog e He) as [[<- | Hin] | Hc]; eauto.
    + destruct (IH (with_timers (timers st ++ [TargetBlankifyTimer]) st))
        as (st' & Hrun & H1 & H2 & H3 & H4 & H5 & H6 & Hlog).
      exists st'. repeat split; assumption.
Qed.

(** When the promise of an isolated import is fulfilled while
    [history.location] is not the recorded previous location, its
    callback renders nothing: the documents and the mounted root stay as
    they are, and the log gains nothing but the lines that the handlers
    of the resolver write to the console. *)
Theorem stale_import_dropped
    (browser : Browser) (options : Options) (st : State) (i : nat)
    (p : Promise Module) (m : Module) :
  pending st !! i = Some p ->
  outcome p = Fulfilled m ->
  same_object (history_location st) (previousLocation st) = false ->
  let st' := step browser options (ImportSettles i) st in
  originalDocumentElement st' = originalDocumentElement st /\
  replacedDocumentElement st' = replacedDocumentElement st /\
  unmount st' = unmount st /\
  pending st' = remove_nth i (pending st) /\
  forall e, In e (log st') -> In e (log st) \/ exists path err, e = Console path err.
Proof.
  intros Hp Hm Hstale st'. subst st'. cbn [step]. rewrite Hp.
  unfold run_task, settle, bind.
  destruct (side_effects_frame browser (on_settle p)
              (with_pending (remove_nth i (pending st)) st))
    as (s & Hrun & H1 & H2 & H3 & H4 & H5 & H6 & Hlog).
  rewrite Hrun, Hm.
  rewrite (renderIsolated_guard browser m s) by (rewrite H1, H2; exact Hstale).
  repeat split; assumption.
Qed.

Lemma stale_import_dropped_witness :
  let st :=
    run Example.chrome Example.workshop
        [Navigate "/isolated/exercise/03.js"; Navigate "/isolated/nothing.js"]
        (Example.started_at "/3") in
  let st' := step Example.chrome Example.workshop (ImportSettles 0) st in
  originalDocumentElement st' = originalDocumentElement st /\
  replacedDocumentElement st' = replacedDocumentElement st /\
  unmount st' = unmount st /\
  pending st' = remove_nth 0 (pending st) /\
  forall e, In e (log st') -> In e (log st) \/ exists path err, e = Console path err.
Proof.
  intros st.
  apply (stale_import_dropped Example.chrome Example.workshop st 0
           {| on_settle := [];
              outcome := Fulfilled {| App := VUndefined;
                                      default_export := VFunction (Component 31) |} |}
           {| App := VUndefined; default_export := VFunction (Component 31) |}).
  - vm_compute. reflexivity.
  - reflexivity.
  - vm_compute. reflexivity.
Defined.

(** ** The routes *)

Lemma startsWith_app (p rest : string) : JsString.startsWith (p ++ rest) p = true.
Proof.
  induction p as [| a p IH]; [destruct rest; reflexivity |].
  change (Ascii.eqb a a && JsString.startsWith (p ++ rest) p = true).
  rewrite Ascii.eqb_refl. exact IH.
Qed.

Lemma drop_app (p rest : string) : JsString.drop (String.length p) (p ++ rest) = rest.
Proof. induction p as [| a p IH]; [destruct rest; reflexivity | exact IH]. Qed.

Lemma replace_prefix (pat rep rest : string) :
  JsString.replace pat rep (pat ++ rest) = rep ++ rest.
Proof.
  assert (H : forall s, JsString.startsWith s pat = true ->
                        JsString.replace pat rep s = rep ++ JsString.drop (String.length pat) s).
  { intros s Hs. destruct s; cbn [JsString.replace]; rewrite Hs; reflexivity. }
  rewrite (H _ (startsWith_app pat rest)), drop_app. reflexivity.
Qed.

Lemma find_present {A} (f : A -> bool) (l : list A) (x : A) :
  In x l -> f x = true -> exists y, List.find f l = Some y /\ f y = true.
Proof.
  induction l as [| a l IH]; intros Hin Hx; [destruct Hin |].
  simpl. destruct (f a) eqn:Ha; [eauto |].
  destruct Hin as [-> | Hin]; [congruence | exact (IH Hin Hx)].
Qed.

(** Every file of the manifest under [src] that has an import is shown
    at its isolated route: a navigation to [/isolated<rest>] finds an
    entry with file path [src<rest>] and hands the loader that the
    resolver gives for that path to the isolated renderer. *)
Theorem isolated_route_reaches_file
    (browser : Browser) (options : Options) (rest : string) (info : FileInfo)
    (importFn : DynamicImportFn) (st : State) :
  In info (filesInfo options) ->
  filePath info = "src" ++ rest ->
  imports options !! ("src" ++ rest) = Some importFn ->
  let st' := step browser options (Navigate ("/isolated" ++ rest)) st in
  exists i load,
    findInfo browser options ("/isolated" ++ rest) = Some i /\
    filePath i = "src" ++ rest /\
    moduleWithDefaultExport (imports options) ("src" ++ rest) = inr load /\
    pending st' = (pending st ++ [load tt])%list /\
    previousIsIsolated st' = Some true.
Proof.
  intros Hin Hpath Himp st'.
  assert (Hiso : isIsolated ("/isolated" ++ rest) = true)
    by (apply (startsWith_app "/isolated" rest)).
  assert (Hfind : exists i, findInfo browser options ("/isolated" ++ rest) = Some i /\
                            filePath i = "src" ++ rest).
  { unfold findInfo. rewrite Hiso, (replace_prefix "/isolated" "src" rest).
    destruct (find_present (fun i => String.eqb (filePath i) ("src" ++ rest))
                (filesInfo options) info Hin) as (i & Hi & Hip).
    - apply String.eqb_eq. exact Hpath.
    - exists i. split; [exact Hi | apply String.eqb_eq; exact Hip]. }
  destruct Hfind as (i & Hi & Hip).
  assert (Hload : exists load,
            moduleWithDefaultExport (imports options) ("src" ++ rest) = inr load).
  { unfold moduleWithDefaultExport. rewrite Himp.
    destruct (JsString.endsWith ("src" ++ rest) "html"); eauto. }
  destruct Hload as (load & Hload).
  exists i, load. split; [exact Hi |]. split; [exact Hip |]. split; [exact Hload |].
  subst st'. rewrite step_Navigate. cbv zeta.
  set (location := {| key := next_key st; pathname := "/isolated" ++ rest |}).
  set (st0 := with_history location (S (next_key st)) st).
  destruct (handleLocationChange_split browser options location st0
              (isIsolated_nonempty _ Hiso)) as (st1 & Hrun & Hsame & _).
  destruct Hsame as (_ & _ & _ & _ & _ & _ & Hpe & _).
  unfold run_task. rewrite Hrun.
  rewrite <- Hip in Hload.
  rewrite (renderLocation_isolated browser options location st1 i load Hiso Hi Hload).
  simpl. rewrite Hpe. split; reflexivity.
Qed.

Lemma isolated_route_reaches_file_witness :
  let st := Example.started_at "/3" in
  let st' := step Example.chrome Example.workshop (Navigate ("/isolated" ++ "/final/03.js")) st in
  exists i load,
    findInfo Example.chrome Example.workshop ("/isolated" ++ "/final/03.js") = Some i /\
    filePath i = "src" ++ "/final/03.js" /\
    moduleWithDefaultExport (imports Example.workshop) ("src" ++ "/final/03.js") = inr load /\
    pending st' = (pending st ++ [load tt])%list /\
    previousIsIsolated st' = Some true.
Proof.
  apply (isolated_route_reaches_file Example.chrome Example.workshop "/final/03.js"
           Example.final3
           (fulfilled_with {| App := VFunction (Component 32); default_export := VUndefined |})
           (Example.started_at "/3")).
  - simpl. auto.
  - reflexivity.
  - vm_compute. reflexivity.
Defined.

Lemma split_no_separator (c : ascii) (seg : string) :
  all_chars (other_than c) seg = true -> JsString.split c seg = [seg].
Proof.
  induction seg as [| a s IH]; [reflexivity |].
  simpl. intros H. apply andb_prop in H. destruct H as [Ha Hs].
  unfold other_than in Ha. apply negb_true_iff in Ha. rewrite Ha, (IH Hs). reflexivity.
Qed.

Lemma split_last_segment (c : ascii) (seg : string) :
  all_chars (other_than c) seg = true ->
  forall dir, exists ws,
    ws <> [] /\ JsString.split c (dir ++ String c seg) = (ws ++ [seg])%list.
Proof.
  intros Hseg. induction dir as [| a dir IH].
  - exists [EmptyString]. split; [discriminate |].
    change (JsString.split c (String c seg) = [EmptyString; seg]).
    simpl. rewrite Ascii.eqb_refl, (split_no_separator c seg Hseg). reflexivity.
  - destruct IH as (ws & Hne & Hws).
    change (String a dir ++ String c seg) with (String a (dir ++ String c seg)).
    cbn [JsString.split]. rewrite Hws.
    destruct (Ascii.eqb a c).
    + exists (EmptyString :: ws). split; [discriminate | reflexivity].
    + destruct ws as [| w ws]; [congruence |].
      exists (String a w :: ws). split; [discriminate | reflexivity].
Qed.

Lemma last_item_last (ws : list string) (seg : string) :
  JsString.last_item (ws ++ [seg]) = Some seg.
Proof. unfold JsString.last_item. rewrite List.map_app. apply List.last_last. Qed.

Lemma digits_no_slash (d : Decimal.uint) :
  all_chars (other_than "/") (NilEmpty.string_of_uint d) = true.
Proof. induction d; simpl; try rewrite IHd; reflexivity. Qed.

Lemma ofNumber_no_slash (n : N) : all_chars (other_than "/") (JsString.ofNumber n) = true.
Proof.
  unfold JsString.ofNumber, NilZero.string_of_uint.
  destruct (N.to_uint n); try apply digits_no_slash. reflexivity.
Qed.

(** The route of an instruction: on a path that ends in [/] and the
    decimal form of a safe integer N, and that is not isolated, the
    handler looks for the first entry of type [instruction] with number N
    in the manifest, whatever stands in front of the last [/]. *)
Theorem numbered_route
    (browser : Browser) (options : Options) (dir : string) (n : N) :
  (n <= MAX_SAFE_INTEGER)%N ->
  isIsolated (dir ++ "/" ++ JsString.ofNumber n) = false ->
  findInfo browser options (dir ++ "/" ++ JsString.ofNumber n)
  = instruction_numbered (filesInfo options) n.
Proof.
  intros Hle Hiso.
  destruct (split_last_segment "/" (JsString.ofNumber n) (ofNumber_no_slash n) dir)
    as (ws & _ & Hws).
  apply (findInfo_instruction browser options _ (JsString.ofNumber n) n Hiso).
  - change (dir ++ "/" ++ JsString.ofNumber n) with (dir ++ String "/" (JsString.ofNumber n)).
    rewrite Hws. apply last_item_last.
  - apply ofNumber_numeral.
  - exact Hle.
Qed.

Lemma numbered_route_witness :
  findInfo Example.chrome Example.workshop ("/exercise" ++ "/" ++ JsString.ofNumber 3)
  = Some Example.instruction3.
Proof.
  rewrite (numbered_route Example.chrome Example.workshop "/exercise" 3).
  - reflexivity.
  - vm_compute. discriminate.
  - reflexivity.
Defined.

(** A path that ends in [/] and is not isolated, the root [/] among
    them, is the route of instruction 0: its last segment is empty, and
    [Number] of the empty string is 0. *)
Theorem trailing_slash_is_instruction_zero
    (browser : Browser) (options : Options) (dir : string) :
  isIsolated (dir ++ "/") = false ->
  findInfo browser options (dir ++ "/") = instruction_numbered (filesInfo options) 0.
Proof.
  intros Hiso.
  destruct (split_last_segment "/" EmptyString eq_refl dir) as (ws & _ & Hws).
  unfold findInfo. rewrite Hiso.
  change (dir ++ "/") with (dir ++ String "/" EmptyString).
  rewrite Hws, last_item_last. reflexivity.
Qed.

Lemma trailing_slash_is_instruction_zero_witness :
  findInfo Example.chrome Example.workshop ("" ++ "/") = Some Example.intro0.
Proof.
  rewrite (trailing_slash_is_instruction_zero Example.chrome Example.workshop "").
  - reflexivity.
  - reflexivity.
Defined.

(** ** The scripts of an isolated page, further *)

Module ReplayFacts.

Import ScriptReplay ReplayOrder ReplayProgress.

Lemma find_copied (g : string -> string) (name : string) (l : list (string * string)) :
  List.find (fun kv => String.eqb (fst kv) name) (List.map (fun n => (n, g n)) (List.map fst l))
  = match List.find (fun kv => String.eqb (fst kv) name) l with
    | Some kv => Some (fst kv, g (fst kv))
    | None => None
    end.
Proof.
  induction l as [| kv l IH]; [reflexivity |].
  simpl. destruct (String.eqb (fst kv) name); [reflexivity | exact IH].
Qed.

Lemma existsb_copied (g : string -> string) (name : string) (l : list (string * string)) :
  existsb (fun kv => String.eqb (fst kv) name) (List.map (fun n => (n, g n)) (List.map fst l))
  = existsb (fun kv => String.eqb (fst kv) name) l.
Proof.
  induction l as [| kv l IH]; [reflexivity |]. simpl. rewrite IH. reflexivity.
Qed.

Lemma names_copied (g : string -> string) (l : list (string * string)) :
  List.map fst (List.map (fun n => (n, g n)) (List.map fst l)) = List.map fst l.
Proof.
  induction l as [| kv l IH]; [reflexivity |]. simpl. rewrite IH. reflexivity.
Qed.

Lemma completed_all_loaded (scripts : list Script) (a : Action) (p : Pass) :
  scripts_of p = scripts ->
  (completed p = true -> length scripts <= position p /\ all_loaded p = true) ->
  completed (step a p) = true ->
  length scripts <= position (step a p) /\ all_loaded (step a p) = true.
Proof.
  intros Hs Hp. destruct a as [| i]; simpl.
  - destruct (completed p) eqn:Hc; [intros _; exact (Hp eq_refl) |].
    destruct (scripts_of p !! position p) as [script |] eqn:Hscript.
    + destruct (negb (hasAttribute "src" script) && negb (all_loaded p));
        simpl; [rewrite Hc |]; discriminate.
    + destruct (all_loaded p) eqn:Hall; simpl; [| rewrite Hc; discriminate].
      intros _. rewrite Hs in Hscript. apply lookup_ge_None in Hscript.
      split; [exact Hscript | exact Hall].
  - destruct (mem i (loadingScriptsQueue p) && negb (mem i (loaded p))); [| exact Hp].
    simpl. intros Hc. destruct (Hp Hc) as [Hlen Hall]. split; [exact Hlen |].
    unfold all_loaded in *. simpl. apply forallb_forall. intros j Hj.
    rewrite forallb_forall in Hall. rewrite (Hall j Hj). apply orb_true_r.
Qed.

Lemma completed_all_loaded_run (scripts : list Script) (acts : list Action) :
  forall p,
    scripts_of p = scripts ->
    (completed p = true -> length scripts <= position p /\ all_loaded p = true) ->
    completed (run acts p) = true ->
    length scripts <= position (run acts p) /\ all_loaded (run acts p) = true.
Proof.
  induction acts as [| a acts IH]; intros p Hs Hp; [exact Hp |].
  rewrite run_cons. apply IH.
  - destruct a as [| i]; simpl.
    + destruct (completed p); [exact Hs |].
      destruct (scripts_of p !! position p);
        [destruct (negb (hasAttribute "src" s) && negb (all_loaded p)) |
         destruct (all_loaded p)]; exact Hs.
    + destruct (mem i (loadingScriptsQueue p) && negb (mem i (loaded p))); exact Hs.
  - apply completed_all_loaded; assumption.
Qed.

End ReplayFacts.

(** The new script element is a copy of the old one: it has the same
    attribute names in the same order, every attribute reads the same on
    it, [src] among them, and it has the same inline text. *)
Theorem newScript_copies (script : Script) (name : string) :
  ScriptReplay.getAttribute name (ScriptReplay.newScript script)
  = ScriptReplay.getAttribute name script /\
  hasAttribute name (ScriptReplay.newScript script) = hasAttribute name script /\
  ScriptReplay.getAttributeNames (ScriptReplay.newScript script)
  = ScriptReplay.getAttributeNames script /\
  innerHTML (ScriptReplay.newScript script) = innerHTML script.
Proof.
  split; [| split; [| split]].
  - unfold ScriptReplay.getAttribute at 1. unfold ScriptReplay.newScript.
    cbn [attributes]. unfold ScriptReplay.getAttributeNames.
    rewrite ReplayFacts.find_copied.
    unfold ScriptReplay.getAttribute at 2.
    destruct (List.find (fun kv => String.eqb (fst kv) name) (attributes script))
      as [kv |] eqn:E; [| reflexivity].
    destruct (List.find_some _ _ E) as [_ Ek]. apply String.eqb_eq in Ek.
    cbn [fst snd]. rewrite Ek. unfold ScriptReplay.getAttribute. rewrite E. reflexivity.
  - unfold hasAttribute, ScriptReplay.newScript. cbn [attributes].
    apply ReplayFacts.existsb_copied.
  - unfold ScriptReplay.getAttributeNames, ScriptReplay.newScript. cbn [attributes].
    apply ReplayFacts.names_copied.
  - reflexivity.
Qed.

(** When every load event fires as soon as its script is in place, the
    pass completes: every script has been put in place, and the load
    event of every external script has fired. *)
Theorem replay_completes (scripts : list Script) :
  let p := ScriptReplay.run (ScriptReplay.eager 0 scripts) (ScriptReplay.start scripts) in
  ScriptReplay.completed p = true /\
  ScriptReplay.inserted (ScriptReplay.trace p) = length scripts /\
  forall j, ScriptReplay.external scripts j -> In (ScriptReplay.LoadFired j) (ScriptReplay.trace p).
Proof.
  intros p.
  pose proof (ReplayProgress.eager_completes scripts) as Hc. fold p in Hc.
  pose proof (ReplayOrder.invariant_run scripts (ScriptReplay.eager 0 scripts) _
                (ReplayOrder.invariant_start scripts)) as Hinv.
  fold p in Hinv. destruct Hinv as [Hs Hpos Hb Hq Hl Ho].
  destruct (ReplayFacts.completed_all_loaded_run scripts (ScriptReplay.eager 0 scripts)
              (ScriptReplay.start scripts) eq_refl) as [Hlen Hall].
  { discriminate. }
  { exact Hc. }
  fold p in Hlen, Hall.
  split; [exact Hc |]. split; [lia |].
  intros j He. apply Hl. apply (ReplayOrder.all_loaded_spec p Hall). apply Hq.
  split; [| exact He]. destruct He as (s & Hsj & _). apply lookup_lt_Some in Hsj. lia.
Qed.

Lemma replay_stalled_step (scripts : list Script) (j : nat) (a : ScriptReplay.Action)
    (p : ScriptReplay.Pass) :
  ScriptReplay.external scripts j ->
  a <> ScriptReplay.Load j ->
  ScriptReplay.invariant scripts p ->
  ScriptReplay.completed p = false ->
  ScriptReplay.mem j (ScriptReplay.loaded p) = false ->
  ~ In (ScriptReplay.LoadFired j) (ScriptReplay.trace p) ->
  ScriptReplay.completed (ScriptReplay.step a p) = false /\
  ScriptReplay.mem j (ScriptReplay.loaded (ScriptReplay.step a p)) = false /\
  ~ In (ScriptReplay.LoadFired j) (ScriptReplay.trace (ScriptReplay.step a p)).
Proof.
  intros He Ha Hinv Hc Hj Hno. destruct Hinv as [Hs Hpos Hb Hq Hl Ho].
  destruct a as [| i]; simpl.
  - rewrite Hc.
    destruct (ScriptReplay.scripts_of p !! ScriptReplay.position p) as [script |] eqn:Hscript.
    + destruct (negb (hasAttribute "src" script) && negb (ScriptReplay.all_loaded p));
        simpl; [auto |].
      split; [reflexivity |]. split; [exact Hj |].
      intros [H | H]; [discriminate H | exact (Hno H)].
    + destruct (ScriptReplay.all_loaded p) eqn:Hall; [| auto].
      exfalso. rewrite Hs in Hscript. apply lookup_ge_None in Hscript.
      assert (Hjq : ScriptReplay.mem j (ScriptReplay.loadingScriptsQueue p) = true).
      { apply Hq. split; [| exact He]. destruct He as (s & Hsj & _).
        apply lookup_lt_Some in Hsj. lia. }
      rewrite (ReplayOrder.all_loaded_spec p Hall j Hjq) in Hj. discriminate Hj.
  - destruct (ScriptReplay.mem i (ScriptReplay.loadingScriptsQueue p)
              && negb (ScriptReplay.mem i (ScriptReplay.loaded p))); simpl; [| auto].
    assert (Hij : i <> j) by congruence.
    split; [exact Hc |]. split.
    + rewrite Hj, orb_false_r. apply Nat.eqb_neq. congruence.
    + intros [H | H]; [congruence | exact (Hno H)].
Qed.

(** When the load event of an external script never fires, the pass
    never completes, and no inline script after that script is ever put
    in place, however often the pass is resumed and whatever other load
    events fire. *)
Theorem replay_stalls (scripts : list Script) (acts : list ScriptReplay.Action) (j : nat) :
  ScriptReplay.external scripts j ->
  ~ In (ScriptReplay.Load j) acts ->
  let p := ScriptReplay.run acts (ScriptReplay.start scripts) in
  ScriptReplay.completed p = false /\
  forall i s, j < i -> ScriptReplay.inline scripts i ->
              ~ In (ScriptReplay.Inserted i s) (ScriptReplay.trace p).
Proof.
  intros He Hacts p.
  assert (H : forall acts q,
            ~ In (ScriptReplay.Load j) acts ->
            ScriptReplay.invariant scripts q ->
            ScriptReplay.completed q = false ->
            ScriptReplay.mem j (ScriptReplay.loaded q) = false ->
            ~ In (ScriptReplay.LoadFired j) (ScriptReplay.trace q) ->
            ScriptReplay.invariant scripts (ScriptReplay.run acts q) /\
            ScriptReplay.completed (ScriptReplay.run acts q) = false /\
            ~ In (ScriptReplay.LoadFired j) (ScriptReplay.trace (ScriptReplay.run acts q))).
  { clear acts Hacts p. induction acts as [| a acts IH]; intros q Hn Hinv Hc Hj Hno.
    - auto.
    - rewrite ReplayProgress.run_cons.
      assert (Ha : a <> ScriptReplay.Load j) by (intros ->; apply Hn; left; reflexivity).
      destruct (replay_stalled_step scripts j a q He Ha Hinv Hc Hj Hno) as (H1 & H2 & H3).
      apply IH; try assumption.
      + intros Hin. apply Hn. right. exact Hin.
      + apply ReplayOrder.invariant_step. exact Hinv. }
  destruct (H acts (ScriptReplay.start scripts) Hacts (ReplayOrder.invariant_start scripts))
    as (Hinv & Hc & Hno); try reflexivity.
  { intros []. }
  fold p in Hinv, Hc, Hno. split; [exact Hc |].
  intros i s Hji Hinline Hin.
  apply List.in_split in Hin. destruct Hin as (newer & older & Htr).
  pose proof (ScriptReplay.inv_ordered scripts p Hinv) as Hord.
  rewrite Htr in Hord. apply ReplayOrder.ordered_at in Hord.
  destruct Hord as (_ & _ & Hloads).
  apply Hno. rewrite Htr. apply List.in_or_app. right. right.
  exact (Hloads Hinline j Hji He).
Qed.

Lemma replay_stalls_witness :
  let scripts := [Example.externalScript; Example.inlineScript] in
  let acts := [ScriptReplay.Resume; ScriptReplay.Resume; ScriptReplay.Load 1;
               ScriptReplay.Resume] in
  let p := ScriptReplay.run acts (ScriptReplay.start scripts) in
  ScriptReplay.completed p = false /\
  forall i s, 0 < i -> ScriptReplay.inline scripts i ->
              ~ In (ScriptReplay.Inserted i s) (ScriptReplay.trace p).
Proof.
  intros scripts acts.
  apply (replay_stalls scripts acts 0).
  - exists Example.externalScript. split; reflexivity.
  - simpl. intros [H | [H | [H | [H | []]]]]; discriminate H.
Defined.

(** ** The links of the instructions *)

Module LinkFacts.

Import InstructionLinks.

Lemma get_set_same (name value : string) (attrs : list (string * string)) :
  getAttribute name (setAttribute name value attrs) = Some value.
Proof.
  unfold getAttribute. induction attrs as [| [k v] attrs IH]; simpl.
  - rewrite String.eqb_refl. reflexivity.
  - destruct (String.eqb k name) eqn:E; simpl; rewrite E; [reflexivity | exact IH].
Qed.

Lemma get_set_other (name other value : string) (attrs : list (string * string)) :
  other <> name ->
  getAttribute other (setAttribute name value attrs) = getAttribute other attrs.
Proof.
  intros Hne. unfold getAttribute. induction attrs as [| [k v] attrs IH]; simpl.
  - apply String.eqb_neq in Hne. rewrite String.eqb_sym, Hne. reflexivity.
  - destruct (String.eqb k name) eqn:E; simpl.
    + apply String.eqb_eq in E. subst k.
      apply String.eqb_neq in Hne. rewrite String.eqb_sym, Hne. reflexivity.
    + destruct (String.eqb k other); [reflexivity | exact IH].
Qed.

Lemma set_same_value (name value : string) (attrs : list (string * string)) :
  getAttribute name attrs = Some value -> setAttribute name value attrs = attrs.
Proof.
  unfold getAttribute. induction attrs as [| [k v] attrs IH]; simpl; [discriminate |].
  destruct (String.eqb k name) eqn:E; simpl.
  - intros H. inversion H. reflexivity.
  - intros H. rewrite (IH H). reflexivity.
Qed.

End LinkFacts.

(** After the callback of [targetBlankifyInstructionLinks] every anchor
    of the instruction container opens in a new tab and has the [rel] of
    the source, the anchors are as many as before, and every other
    attribute of every anchor reads as before. *)
Theorem links_blankified (anchors : list (list (string * string))) :
  exists anchors',
    InstructionLinks.callback (Some anchors) = Some anchors' /\
    length anchors' = length anchors /\
    forall k anchor',
      anchors' !! k = Some anchor' ->
      InstructionLinks.getAttribute "target" anchor' = Some "_blank" /\
      InstructionLinks.getAttribute "rel" anchor' = Some "noopener noreferrer nofollow" /\
      exists anchor,
        anchors !! k = Some anchor /\
        forall name, name <> "target" -> name <> "rel" ->
                     InstructionLinks.getAttribute name anchor'
                     = InstructionLinks.getAttribute name anchor.
Proof.
  eexists. split; [reflexivity |]. split; [apply List.length_map |].
  intros k anchor' Hk. rewrite list_lookup_fmap in Hk.
  destruct (anchors !! k) as [anchor |] eqn:Ha; [| discriminate Hk].
  simpl in Hk. inversion Hk; subst anchor'. unfold InstructionLinks.blankify.
  split; [| split].
  - rewrite LinkFacts.get_set_other by discriminate. apply LinkFacts.get_set_same.
  - apply LinkFacts.get_set_same.
  - exists anchor. split; [reflexivity |]. intros name Ht Hr.
    rewrite !LinkFacts.get_set_other by assumption. reflexivity.
Qed.

(** The callback can run any number of times (every fulfilled import of
    an instruction file sets its timer): a second run changes nothing. *)
Theorem links_blankified_once (anchors : list (list (string * string))) :
  forall anchors',
    InstructionLinks.callback (Some anchors) = Some anchors' ->
    InstructionLinks.callback (Some anchors') = Some anchors'.
Proof.
  intros anchors' H. simpl in H. inversion H; subst anchors'. simpl. f_equal.
  rewrite List.map_map. apply List.map_ext. intros anchor.
  unfold InstructionLinks.blankify.
  set (b := InstructionLinks.setAttribute "rel" "noopener noreferrer nofollow"
              (InstructionLinks.setAttribute "target" "_blank" anchor)).
  assert (Ht : InstructionLinks.getAttribute "target" b = Some "_blank").
  { unfold b. rewrite LinkFacts.get_set_other by discriminate. apply LinkFacts.get_set_same. }
  rewrite (LinkFacts.set_same_value "target" "_blank" b Ht).
  apply LinkFacts.set_same_value. apply LinkFacts.get_set_same.
Qed.

Lemma links_blankified_once_witness :
  InstructionLinks.callback
    (Some [ [("href", "https://react.dev"); ("target", "_blank");
             ("rel", "noopener noreferrer nofollow")] ])
  = Some [ [("href", "https://react.dev"); ("target", "_blank");
            ("rel", "noopener noreferrer nofollow")] ].
Proof.
  apply (links_blankified_once [ [("href", "https://react.dev"); ("target", "_self")] ]).
  reflexivity.
Defined.

(** ** The original document under an isolated page *)

Lemma page_over_document (o : Doc) (f : Doc -> Doc) (st : State) :
  page_over o st -> page_over o (update_document f st).
Proof.
  unfold page_over, update_document. intros [Ho [d Hd]]. rewrite Hd. simpl. eauto.
Qed.

Lemma render_documents (ui : Ui) (st : State) :
  originalDocumentElement (final_state (render ui st)) = originalDocumentElement st /\
  replacedDocumentElement (final_state (render ui st)) = replacedDocumentElement st.
Proof.
  unfold render, bind, get, emit, modify, ret.
  destruct (root (document st)); [destruct (unmount st) |]; split; reflexivity.
Qed.

Lemma renderLocation_original
    (browser : Browser) (options : Options) (location : Location) (st : State) :
  is_Some (replacedDocumentElement st) ->
  originalDocumentElement (final_state (renderLocation browser options location st))
  = originalDocumentElement st.
Proof.
  intros [d Hd].
  destruct (isIsolated (pathname location)) eqn:Hiso.
  - destruct (findInfo browser options (pathname location)) as [i |] eqn:Hinfo.
    + destruct (moduleWithDefaultExport (imports options) (filePath i)) as [e | load] eqn:Hload.
      * rewrite (renderLocation_missing_import _ _ _ _ i e Hiso Hinfo Hload). reflexivity.
      * rewrite (renderLocation_isolated _ _ _ _ i load Hiso Hinfo Hload). reflexivity.
    + rewrite (renderLocation_not_found _ _ _ _ Hiso Hinfo). simpl.
      unfold update_document. rewrite Hd. reflexivity.
  - destruct (decide (previousIsIsolated st = Some false)) as [Hprev | Hprev].
    + rewrite (renderLocation_shell_same _ _ _ _ Hiso Hprev). reflexivity.
    + rewrite (renderLocation_shell_enter _ _ _ _ Hiso Hprev). rewrite Hd. reflexivity.
Qed.

(** While an isolated HTML page is in place, what the model records of
    the original document element stays as it is. *)
Lemma original_record_kept
    (browser : Browser) (options : Options) (ev : Event) (st : State) (d : Doc) :
  replacedDocumentElement st = Some d ->
  originalDocumentElement (step browser options ev st) = originalDocumentElement st.
Proof.
  intros Hd. destruct ev as [pathname' | i | i |]; [rewrite step_Navigate | cbn [step] ..].
  - cbv zeta.
    set (location := {| key := next_key st; pathname := pathname' |}).
    set (st0 := with_history location (S (next_key st)) st).
    assert (H0 : page_over (originalDocumentElement st) st0).
    { split; [reflexivity |]. exists d. exact Hd. }
    pose proof (preserves_updateBodyClass _ (page_over_document (originalDocumentElement st))
                  location st0 H0) as H1.
    unfold run_task, handleLocationChange, bind.
    destruct (updateBodyClass location st0) as [[] s1 | e s1]; simpl in H1.
    + destruct H1 as [Ho Hsome]. cbv beta iota.
      pose proof (renderLocation_original browser options location s1 Hsome) as Hr.
      destruct (renderLocation browser options location s1) as [[] s2 | e s2];
        simpl in Hr; simpl; congruence.
    + destruct H1 as [Ho _]. exact Ho.
  - destruct (pending st !! i) as [p |]; [| reflexivity].
    unfold run_task, settle, bind.
    destruct (side_effects_frame browser (on_settle p)
                (with_pending (remove_nth i (pending st)) st))
      as (s & Hrun & _ & _ & Ho & Hr & _).
    simpl in Ho. rewrite Hrun. cbv beta iota. destruct (outcome p) as [m | e]; [| exact Ho].
    assert (Hthen : originalDocumentElement (final_state (renderIsolated_then browser m s))
                    = originalDocumentElement s).
    { unfold renderIsolated_then, bind, get.
      destruct (negb (same_object (history_location s) (previousLocation s)));
        [reflexivity |].
      destruct (default_export m) as [| | markup | f | n]; try reflexivity.
      destruct f; try reflexivity; apply render_documents. }
    destruct (renderIsolated_then browser m s) as [[] s2 | e s2]; simpl in Hthen; simpl;
      congruence.
  - destruct (timers st !! i) as [[info |] |]; try reflexivity.
    unfold run_task, title_callback, bind, get, when, modify, ret.
    destruct (negb (String.eqb _ _)); simpl; [| reflexivity].
    unfold update_document. simpl. rewrite Hd. reflexivity.
  - unfold run_task.
    pose proof (render_documents ShellUi st) as [Ho _].
    destruct (render ShellUi st) as [[] s | e s]; simpl in Ho; simpl; exact Ho.
Qed.

(** While an isolated HTML page is in place, no event changes the class
    list of the body, the text of the title or the presence of the root
    element of the original document element: the marks of the passes,
    the "nothing here" text and the titles all go to the page in place.
    (What is mounted under the root of the original document is another
    matter: see [render_under_page_unmounts] below.) *)
Theorem original_document_marks_kept
    (browser : Browser) (options : Options) (ev : Event) (st : State) (d : Doc) :
  replacedDocumentElement st = Some d ->
  let before := originalDocumentElement st in
  let after := originalDocumentElement (step browser options ev st) in
  classList after = classList before /\
  doc_title after = doc_title before /\
  root after = root before.
Proof.
  intros Hd before after. subst before after.
  rewrite (original_record_kept browser options ev st d Hd). repeat split.
Qed.

Lemma original_document_marks_kept_witness :
  let st :=
    run Example.chrome Example.workshop [ImportSettles 0]
        (Example.started_at "/isolated/examples/page.html") in
  let before := originalDocumentElement st in
  let after :=
    originalDocumentElement
      (step Example.chrome Example.workshop (Navigate "/isolated/nothing.html") st) in
  classList after = classList before /\
  doc_title after = doc_title before /\
  root after = root before.
Proof.
  intros st.
  apply (original_document_marks_kept Example.chrome Example.workshop
           (Navigate "/isolated/nothing.html") st
           (parseFromString Example.chrome Example.markup)).
  vm_compute. reflexivity.
Defined.

(** The root that React made under the root element of the original
    document is not out of reach, though: when the page in place has a
    root element of its own, a [render] during the isolated view first
    calls the [unmount] of that older root. *)
Lemma render_under_page_unmounts :
  let st :=
    run Example.chrome_with_root Example.workshop
        [ShellRenders; Navigate "/isolated/examples/page.html"; ImportSettles 0]
        (Example.started_at "/3") in
  let st' := step Example.chrome_with_root Example.workshop ShellRenders st in
  is_Some (replacedDocumentElement st) /\
  unmount st = Some ShellUi /\
  log st' = RootRender ShellUi :: Unmount ShellUi :: log st.
Proof. vm_compute. split; [eauto |]. split; reflexivity. Qed.

(** The way back from an isolated HTML page: a navigation to a path that
    is not isolated (and not empty), when the recorded flag is not
    [false], puts the original document element back exactly as the page
    found it, and calls the shell renderer. *)
Theorem shell_restores_original_document
    (browser : Browser) (options : Options) (pathname' : string) (st : State) (d : Doc) :
  replacedDocumentElement st = Some d ->
  pathname' <> EmptyString ->
  isIsolated pathname' = false ->
  previousIsIsolated st <> Some false ->
  let st' := step browser options (Navigate pathname') st in
  replacedDocumentElement st' = None /\
  document st' = originalDocumentElement st /\
  log st' = RenderReactApp :: RestoreOriginalDocument :: log st.
Proof.
  intros Hd Hne Hiso Hprev st'. subst st'. rewrite step_Navigate. cbv zeta.
  set (location := {| key := next_key st; pathname := pathname' |}).
  set (st0 := with_history location (S (next_key st)) st).
  assert (H0 : page_over (originalDocumentElement st) st0).
  { split; [reflexivity |]. exists d. exact Hd. }
  pose proof (preserves_updateBodyClass _ (page_over_document (originalDocumentElement st))
                location st0 H0) as H1.
  destruct (updateBodyClass_spec location st0 Hne) as (s1 & Hrun & Hsame & _).
  rewrite Hrun in H1. simpl in H1. destruct H1 as [Ho [d1 Hd1]].
  destruct Hsame as (_ & _ & _ & Hpi & _ & _ & _ & Hlog & _).
  unfold run_task, handleLocationChange, bind. rewrite Hrun.
  assert (Hprev1 : previousIsIsolated s1 <> Some false) by (rewrite Hpi; exact Hprev).
  rewrite (renderLocation_shell_enter browser options location s1 Hiso Hprev1).
  rewrite Hd1. simpl. rewrite Hlog, Ho. unfold document. simpl.
  repeat split.
Qed.

Lemma shell_restores_original_document_witness :
  let st :=
    run Example.chrome Example.workshop [ImportSettles 0]
        (Example.started_at "/isolated/examples/page.html") in
  let st' := step Example.chrome Example.workshop (Navigate "/3") st in
  replacedDocumentElement st' = None /\
  document st' = originalDocumentElement st /\
  log st' = RenderReactApp :: RestoreOriginalDocument :: log st.
Proof.
  intros st.
  apply (shell_restores_original_document Example.chrome Example.workshop "/3" st
           (parseFromString Example.chrome Example.markup)).
  - vm_compute. reflexivity.
  - discriminate.
  - reflexivity.
  - vm_compute. discriminate.
Defined.

(** ** Imports that fail, and the way back from the "nothing here" text *)

(** When the promise of an isolated import is rejected (which only the
    raw loader of a path in [html] can do), the callback of
    [renderIsolated] does not run: nothing is rendered, the documents and
    the mounted root stay as they are, and the rejection is left without
    a handler. *)
Theorem rejected_import_renders_nothing
    (browser : Browser) (options : Options) (st : State) (i : nat)
    (p : Promise Module) (e : JsError) :
  pending st !! i = Some p ->
  outcome p = Rejected e ->
  let st' := step browser options (ImportSettles i) st in
  originalDocumentElement st' = originalDocumentElement st /\
  replacedDocumentElement st' = replacedDocumentElement st /\
  unmount st' = unmount st /\
  pending st' = remove_nth i (pending st) /\
  (exists older, log st' = UnhandledRejection e :: older) /\
  forall x, In x (log st') -> is_mount_effect x = true -> In x (log st).
Proof.
  intros Hp He st'. subst st'. cbn [step]. rewrite Hp.
  unfold run_task, settle, bind.
  destruct (side_effects_frame browser (on_settle p)
              (with_pending (remove_nth i (pending st)) st))
    as (s & Hrun & _ & _ & H3 & H4 & H5 & H6 & Hlog).
  rewrite Hrun, He. simpl.
  repeat split; try assumption; [eauto |].
  intros x [<- | Hx] Hm; [discriminate Hm |].
  destruct (Hlog x Hx) as [Hin | (path & err & ->)]; [exact Hin | discriminate Hm].
Qed.

Lemma rejected_import_renders_nothing_witness :
  let options :=
    {| imports := {[ "src/examples/page.html" := rejected_with {| message := "404" |} ]};
       filesInfo := [Example.page]; projectTitle := "React" |} in
  let st :=
    step Example.chrome options (Navigate "/isolated/examples/page.html")
         (initial_state "/3" Example.index_html) in
  let st' := step Example.chrome options (ImportSettles 0) st in
  originalDocumentElement st' = originalDocumentElement st /\
  replacedDocumentElement st' = replacedDocumentElement st /\
  unmount st' = unmount st /\
  pending st' = remove_nth 0 (pending st) /\
  (exists older, log st' = UnhandledRejection {| message := "404" |} :: older) /\
  forall x, In x (log st') -> is_mount_effect x = true -> In x (log st).
Proof.
  intros options st.
  apply (rejected_import_renders_nothing Example.chrome options st 0
           {| on_settle := []; outcome := Rejected {| message := "404" |} |}
           {| message := "404" |}).
  - vm_compute. reflexivity.
  - reflexivity.
Defined.

(** From the shell to an isolated path without a file and back to the
    shell: the first pass wipes the body, root element included, and
    records nothing, so the second pass sees the flag [false] it saw
    before and does not call the shell renderer; the "nothing here" text
    stays, and a later [render] finds no root and only alerts. *)
Theorem placeholder_survives_return_to_shell
    (browser : Browser) (options : Options) (missing back : string) (st : State) (ui : Ui) :
  previousIsIsolated st = Some false ->
  isIsolated missing = true ->
  findInfo browser options missing = None ->
  back <> EmptyString ->
  isIsolated back = false ->
  let st' := run browser options [Navigate missing; Navigate back] st in
  shell_renders (log st') = shell_renders (log st) /\
  log st' = NotFoundPlaceholder :: log st /\
  root (document st') = false /\
  render ui st' = Ok tt (with_log (Alert :: log st') st').
Proof.
  intros Hflag Hmiss Hnone Hne Hback st'.
  assert (Hroot : forall s, root (document s) = false ->
                            render ui s = Ok tt (with_log (Alert :: log s) s)).
  { intros s Hs. unfold render, bind, get, emit, modify. rewrite Hs. reflexivity. }
  assert (H1 : exists b,
            step browser options (Navigate missing) st = b /\
            previousIsIsolated b = Some false /\
            log b = NotFoundPlaceholder :: log st /\
            root (document b) = false).
  { rewrite step_Navigate. cbv zeta.
    set (l1 := {| key := next_key st; pathname := missing |}).
    set (a0 := with_history l1 (S (next_key st)) st).
    destruct (handleLocationChange_split browser options l1 a0 (isIsolated_nonempty _ Hmiss))
      as (a1 & Hrun1 & Hsame1 & _).
    destruct Hsame1 as (_ & _ & _ & Hpi1 & _ & _ & _ & Hlog1 & _).
    unfold run_task. rewrite Hrun1.
    rewrite (renderLocation_not_found browser options l1 a1 Hmiss Hnone).
    eexists. split; [reflexivity |].
    destruct (fields_update_document (set_root false) a1) as (_ & _ & _ & Hp).
    simpl. rewrite Hp, Hpi1, Hlog1.
    split; [exact Hflag |]. split; [reflexivity |].
    change (root (document (update_document (set_root false) a1)) = false).
    rewrite document_update. reflexivity. }
  destruct H1 as (b & Hb & Hbflag & Hblog & Hbroot).
  assert (H2 : exists c,
            step browser options (Navigate back) b = c /\
            log c = log b /\ root (document c) = false).
  { rewrite step_Navigate. cbv zeta.
    set (l2 := {| key := next_key b; pathname := back |}).
    set (b0 := with_history l2 (S (next_key b)) b).
    destruct (handleLocationChange_split browser options l2 b0 Hne)
      as (b1 & Hrun2 & Hsame2 & _).
    destruct Hsame2 as (_ & _ & _ & Hpi2 & _ & _ & _ & Hlog2 & _ & _ & Hroot2).
    unfold run_task. rewrite Hrun2.
    assert (Hflag2 : previousIsIsolated b1 = Some false) by (rewrite Hpi2; exact Hbflag).
    rewrite (renderLocation_shell_same browser options l2 b1 Hback Hflag2).
    eexists. split; [reflexivity |]. simpl. split; [exact Hlog2 |].
    change (root (document b1) = false). rewrite Hroot2. exact Hbroot. }
  destruct H2 as (c & Hc & Hclog & Hcroot).
  subst st'. cbn [run foldl]. rewrite Hb, Hc, Hclog, Hblog.
  split; [reflexivity |]. split; [reflexivity |]. split; [exact Hcroot |].
  rewrite (Hroot c Hcroot), Hclog, Hblog. reflexivity.
Qed.

Lemma placeholder_survives_return_to_shell_witness :
  let st := Example.started_at "/3" in
  let st' :=
    run Example.chrome Example.workshop [Navigate "/isolated/nothing.js"; Navigate "/3"] st in
  shell_renders (log st') = shell_renders (log st) /\
  log st' = NotFoundPlaceholder :: log st /\
  root (document st') = false /\
  render ShellUi st' = Ok tt (with_log (Alert :: log st') st').
Proof.
  apply (placeholder_survives_return_to_shell Example.chrome Example.workshop
           "/isolated/nothing.js" "/3" (Example.started_at "/3") ShellUi).
  - reflexivity.
  - reflexivity.
  - reflexivity.
  - discriminate.
  - reflexivity.
Defined.
